(** * proj-concat: the project concatenator of [src/main.py]

    A shallow embedding of [main.py] and the properties of its pipeline:
    the upward search for the rules file ([find_gitignore]), the rules
    parser ([parse_gitignore]), the matcher ([is_ignored]), the extension
    table ([comment_syntax]) and the driver ([concatenate_project]) with
    its command-line front end ([main]).

    Conventions of the model:
    - text is [string]; case folding is the ASCII part of [str.lower];
    - a path is the list of the segments of an absolute, resolved POSIX
      path, root first, so that [Path.resolve] is the identity;
    - the file system is a finite map from paths to nodes; the driver
      threads it explicitly and returns the state it leaves behind;
    - what belongs to the Python runtime rather than to [main.py]
      ([fnmatch.fnmatch], the order of [Path.rglob], the buffering of the
      output stream) is the interface [Runtime]. *)

From Stdlib Require Import Ascii.
From stdpp Require Import gmap strings list fin_maps.

(** ** Strings *)

Module Str.

(** [s.startswith(p)] *)
Fixpoint startswith (p s : string) : bool :=
  match p, s with
  | EmptyString, _ => true
  | String a p', String b s' => if Ascii.eqb a b then startswith p' s' else false
  | String _ _, EmptyString => false
  end.

(** [s.rfind(c)] for a one-character [c]; [None] is Python's [-1]. *)
Fixpoint rfind (c : ascii) (s : string) : option nat :=
  match s with
  | EmptyString => None
  | String a s' =>
      match rfind c s' with
      | Some i => Some (S i)
      | None => if Ascii.eqb a c then Some 0 else None
      end
  end.

(** [s[i:]] *)
Fixpoint drop (i : nat) (s : string) : string :=
  match i, s with
  | 0, _ => s
  | S i', String _ s' => drop i' s'
  | S _, EmptyString => EmptyString
  end.

(** [s[:i]] *)
Fixpoint take (i : nat) (s : string) : string :=
  match i, s with
  | 0, _ => EmptyString
  | S i', String a s' => String a (take i' s')
  | S _, EmptyString => EmptyString
  end.

Definition lower_ascii (a : ascii) : ascii :=
  let n := nat_of_ascii a in
  if (65 <=? n)%nat && (n <=? 90)%nat then ascii_of_nat (n + 32) else a.

(** [s.lower()] on ASCII text. *)
Fixpoint lower (s : string) : string :=
  match s with
  | EmptyString => EmptyString
  | String a s' => String (lower_ascii a) (lower s')
  end.

(** The characters [str.strip()] removes, within ASCII. *)
Definition is_space (a : ascii) : bool :=
  let n := nat_of_ascii a in
  ((9 <=? n)%nat && (n <=? 13)%nat) || ((28 <=? n)%nat && (n <=? 32)%nat).

Fixpoint lstrip (s : string) : string :=
  match s with
  | EmptyString => EmptyString
  | String a s' => if is_space a then lstrip s' else s
  end.

Fixpoint rstrip (s : string) : string :=
  match s with
  | EmptyString => EmptyString
  | String a s' =>
      match rstrip s' with
      | EmptyString => if is_space a then EmptyString else String a EmptyString
      | r => String a r
      end
  end.

(** [s.strip()] *)
Definition strip (s : string) : string := rstrip (lstrip s).

(** The lines a text-mode file object yields: universal newlines, so a
    line ends at a line feed, at a carriage return or at the pair; the
    terminator is kept as one line feed, as Python keeps it. *)
Fixpoint lines_aux (cur : string) (s : string) : list string :=
  match s with
  | EmptyString => match cur with EmptyString => [] | _ => [cur] end
  | String a s' =>
      if Ascii.eqb a "010" then (cur +:+ String "010" EmptyString) :: lines_aux EmptyString s'
      else if Ascii.eqb a "013" then
        (cur +:+ String "010" EmptyString) ::
        match s' with
        | String b s'' => if Ascii.eqb b "010" then lines_aux EmptyString s''
                          else lines_aux EmptyString s'
        | EmptyString => []
        end
      else lines_aux (cur +:+ String a EmptyString) s'
  end.

Definition lines (s : string) : list string := lines_aux EmptyString s.

(** What a text-mode read returns for the decoded text [s]: universal
    newlines, so a carriage return, alone or followed by a line feed,
    comes out as one line feed. *)
Fixpoint universal_newlines (s : string) : string :=
  match s with
  | EmptyString => EmptyString
  | String a s' =>
      if Ascii.eqb a "013" then
        String "010"
          match s' with
          | String b s'' => if Ascii.eqb b "010" then universal_newlines s''
                            else universal_newlines s'
          | EmptyString => EmptyString
          end
      else String a (universal_newlines s')
  end.

(** [sep.join(l)] *)
Fixpoint join (sep : string) (l : list string) : string :=
  match l with
  | [] => EmptyString
  | [x] => x
  | x :: rest => x +:+ sep +:+ join sep rest
  end.

(** [''.join(l)] *)
Definition concat (l : list string) : string := foldr String.append EmptyString l.

(** The line feed. *)
Definition nl : string := String "010" EmptyString.

End Str.

(** ** Exceptions and fallible results *)

(** The exception classes the program can meet.  All of them are
    subclasses of [Exception]; the payload is what [str(e)] shows. *)
Inductive exn :=
| ValueError (msg : string)
| OSError (msg : string)
| UnicodeDecodeError (msg : string).

Definition exn_str (e : exn) : string :=
  match e with
  | ValueError msg | OSError msg | UnicodeDecodeError msg => msg
  end.

Inductive result (A : Type) :=
| Ok (a : A)
| Raise (e : exn).
Arguments Ok {A} a.
Arguments Raise {A} e.

#[global] Instance result_ret : MRet result := fun A a => Ok a.
#[global] Instance result_bind : MBind result := fun A B f m =>
  match m with
  | Ok a => f a
  | Raise e => Raise e
  end.
#[global] Instance result_fmap : FMap result := fun A B f m =>
  match m with
  | Ok a => Ok (f a)
  | Raise e => Raise e
  end.

(** ** Paths *)

(** An absolute, resolved path: its segments, root first.  The root is
    the empty list and is its own parent, as in [pathlib]. *)
Abbreviation path := (list string).

Definition parent (p : path) : path := removelast p.

(** [p.name] *)
Definition name (p : path) : string := List.last p "".

(** [p / s] *)
Definition joinpath (p : path) (s : string) : path := p ++ [s].

(** [str(p)] *)
Definition path_str (p : path) : string := "/" +:+ Str.join "/" p.

(** [PurePath.suffix] of a file name: the part from the last dot on,
    unless that dot leads or ends the name. *)
Definition name_suffix (nm : string) : string :=
  match Str.rfind "." nm with
  | Some i => if (0 <? i)%nat && (i <? String.length nm - 1)%nat then Str.drop i nm else ""
  | None => ""
  end.

(** [p.suffix] *)
Definition suffix (p : path) : string := name_suffix (name p).

(** [p.with_suffix(sfx)] for a well-formed [sfx] such as [".txt"]; a
    path with an empty name raises [ValueError]. *)
Definition with_suffix (p : path) (sfx : string) : result path :=
  let nm := name p in
  if String.eqb nm "" then Raise (ValueError (path_str p +:+ " has an empty name"))
  else
    let old_suffix := suffix p in
    let nm' :=
      if String.eqb old_suffix "" then nm +:+ sfx
      else Str.take (String.length nm - String.length old_suffix) nm +:+ sfx in
    Ok (joinpath (parent p) nm').

(** [p.relative_to(base)] as the list of the remaining segments;
    [ValueError] when [p] does not lie in the subpath of [base]. *)
Fixpoint relative_to (p base : path) {struct base} : result path :=
  match base, p with
  | [], rel => Ok rel
  | b :: base', s :: p' =>
      if String.eqb b s then relative_to p' base'
      else Raise (ValueError "is not in the subpath")
  | _ :: _, [] => Raise (ValueError "is not in the subpath")
  end.

(** [str] of a relative path; the empty one prints as a dot. *)
Definition rel_str (rel : path) : string :=
  match rel with
  | [] => "."
  | _ => Str.join "/" rel
  end.

(** [p] lies strictly below the directory [d]. *)
Definition below (d p : path) : Prop := ∃ rel, rel ≠ [] ∧ p = d ++ rel.

(** ** The file system *)

(** What a regular file holds, as reading meets it:
    - [Text s]: the bytes decode as UTF-8 to [s];
    - [Garbled s msg]: some bytes do not decode; a lenient decoder
      ([errors="ignore"]) gives [s], a strict one raises
      [UnicodeDecodeError];
    - [Unreadable msg]: opening or reading raises [OSError].
    [s] is the decoded text as the file has it; a text-mode read
    translates its line ends ([Str.universal_newlines], [Str.lines]). *)
Inductive contents :=
| Text (s : string)
| Garbled (s : string) (msg : string)
| Unreadable (msg : string).

Inductive node :=
| Dir
| File (c : contents).

Abbreviation FS := (gmap (list string) node).

(** [p.exists()] *)
Definition path_exists (fs : FS) (p : path) : bool :=
  match fs !! p with
  | Some _ => true
  | None => false
  end.

(** [p.is_file()] *)
Definition is_file (fs : FS) (p : path) : bool :=
  match fs !! p with
  | Some (File _) => true
  | _ => false
  end.

(** [p.is_dir()] *)
Definition is_dir (fs : FS) (p : path) : bool :=
  match fs !! p with
  | Some Dir => true
  | _ => false
  end.

(** [p.open("w", encoding="utf-8")]: creates or truncates the file.
    It fails on a directory and where the parent is no directory. *)
Definition open_w (fs : FS) (p : path) : result FS :=
  match fs !! p with
  | Some Dir => Raise (OSError ("Is a directory: " +:+ path_str p))
  | _ =>
      if is_dir fs (parent p) then Ok (<[p := File (Text "")]> fs)
      else Raise (OSError ("No such file or directory: " +:+ path_str p))
  end.

(** Closing the stream leaves everything written in the file. *)
Definition close_w (fs : FS) (p : path) (written : list string) : FS :=
  <[p := File (Text (Str.concat written))]> fs.

(** ** The Python runtime *)

(** The library behaviour [main.py] relies on and does not define:
    - [fnmatch name pat] is [fnmatch.fnmatch(name, pat)];
    - [rglob fs d] lists what [d.rglob("*")] yields, in the order of the
      traversal: every entry strictly below [d], and nothing else;
    - [flushed ws] is the text of the output file that a reader sees
      while the stream is still open and [ws] are the writes so far (the
      stream is buffered, so this is some part of them). *)
Class Runtime := {
  fnmatch : string → string → bool;
  rglob : FS → path → list path;
  rglob_spec : ∀ fs d p, p ∈ rglob fs d ↔ below d p ∧ is_Some (fs !! p);
  flushed : list string → string
}.

(** ** The extension table *)

(** A dict literal, as the list of its items in source order. *)
Abbreviation dict := (list (string * string)).

(** [d.get(k)] *)
Fixpoint dict_lookup (d : dict) (k : string) : option string :=
  match d with
  | [] => None
  | (k', v) :: d' => if String.eqb k' k then Some v else dict_lookup d' k
  end.

(** [d.get(k, dflt)] *)
Definition dict_get (d : dict) (k dflt : string) : string :=
  default dflt (dict_lookup d k).

(** [k in d] *)
Definition dict_in (k : string) (d : dict) : bool :=
  match dict_lookup d k with
  | Some _ => true
  | None => false
  end.

Definition comment_syntax : dict :=
  [ (".py", "#"); (".r", "#"); (".jl", "#"); (".sh", "#"); (".bash", "#");
    (".ps1", "#"); (".bat", "REM"); (".pl", "#"); (".awk", "#");
    (".html", "-->"); (".htm", "-->"); (".xml", "-->"); (".xhtml", "-->");
    (".js", "//"); (".jsx", "//"); (".ts", "//"); (".tsx", "//");
    (".css", "*/"); (".scss", "//"); (".less", "//"); (".java", "//");
    (".c", "//"); (".h", "//"); (".cpp", "//"); (".cc", "//"); (".cxx", "//");
    (".c++", "//"); (".cs", "//"); (".go", "//"); (".swift", "//");
    (".kt", "//"); (".kts", "//"); (".dart", "//"); (".php", "//");
    (".rb", "#"); (".lua", "--"); (".scala", "//"); (".groovy", "//");
    (".vbs", "'"); (".fs", "//"); (".fsx", "//"); (".hs", "--");
    (".ml", "(* *)"); (".mli", "(* *)"); (".clj", ";"); (".cljs", ";");
    (".lisp", ";"); (".lsp", ";"); (".scm", ";"); (".rkt", ";"); (".erl", "%");
    (".ex", "#"); (".exs", "#"); (".json", ""); (".yaml", "#"); (".yml", "#");
    (".ini", ";"); (".toml", "#"); (".cfg", "#"); (".conf", "#");
    (".properties", "#"); (".sql", "--"); (".md", "-->"); (".markdown", "-->");
    (".rst", ".."); (".tex", "%"); (".latex", "%"); (".make", "#");
    (".mk", "#"); ("Makefile", "#"); (".dockerfile", "#"); ("Dockerfile", "#");
    (".env", "#"); (".gitattributes", "#"); (".gitignore", "#");
    (".editorconfig", "#") ].

(** The extensions whose header does not repeat the marker. *)
Definition markup_exts : list string := [".html"; ".css"; ".xml"; ".md"].

(** [x in l] for a list of strings *)
Definition str_in (x : string) (l : list string) : bool :=
  existsb (String.eqb x) l.

(** ** The program *)

(** A block of the output: the file it stands for and the strings the
    driver passed to [outfile.write] for it, in order. *)
Abbreviation block := (path * list string)%type.

(** All the writes of a run so far. *)
Definition writes (blocks : list block) : list string :=
  concat (map snd blocks).

(** How a run of the driver ends: it returns, or an exception leaves it.
    Either way [blocks] records what reached the output stream. *)
Inductive outcome :=
| Completed (blocks : list block)
| Aborted (e : exn) (blocks : list block).

(** The blocks of a run, however it ended. *)
Definition outcome_blocks (o : outcome) : list block :=
  match o with
  | Completed blocks | Aborted _ blocks => blocks
  end.

Section Program.
Context `{Runtime}.

(** *** [find_gitignore] *)

(** The [while] loop, with the number of iterations bounded by [fuel];
    [None] means the bound was too small. *)
Fixpoint find_gitignore_loop (fs : FS) (fuel : nat) (current : path)
  : option (option path) :=
  match fuel with
  | 0 => None
  | S fuel' =>
      if bool_decide (current ≠ parent current) then
        let gitignore_path := joinpath current ".gitignore" in
        if path_exists fs gitignore_path then Some (Some gitignore_path)
        else find_gitignore_loop fs fuel' (parent current)
      else Some None
  end.

(** One iteration for each segment of the start path and one for the
    root are enough (lemma [find_gitignore_loop_total]). *)
Definition find_gitignore (fs : FS) (start_path : path) : option path :=
  default None (find_gitignore_loop fs (S (length start_path)) start_path).

(** *** [parse_gitignore] *)

(** The body of the [for line in f] loop. *)
Fixpoint parse_lines (ls : list string) : list string :=
  match ls with
  | [] => []
  | line :: rest =>
      let line := Str.strip line in
      if negb (String.eqb line "") && negb (Str.startswith "#" line)
      then line :: parse_lines rest
      else parse_lines rest
  end.

Definition parse_gitignore (fs : FS) (gitignore_path : path) : result (list string) :=
  match fs !! gitignore_path with
  | Some (File (Text s)) => Ok (parse_lines (Str.lines s))
  | Some (File (Garbled _ msg)) => Raise (UnicodeDecodeError msg)
  | Some (File (Unreadable msg)) => Raise (OSError msg)
  | Some Dir => Raise (OSError ("Is a directory: " +:+ path_str gitignore_path))
  | None => Raise (OSError ("No such file or directory: " +:+ path_str gitignore_path))
  end.

(** *** [is_ignored] *)

(** The [for pattern in ignore_patterns] loop.  Besides the answer it
    returns the patterns it evaluated, in order. *)
Fixpoint match_patterns (relative_path nm : string) (ignore_patterns : list string)
  : bool * list string :=
  match ignore_patterns with
  | [] => (false, [])
  | pattern :: rest =>
      if fnmatch relative_path pattern || fnmatch nm pattern then (true, [pattern])
      else
        let '(b, seen) := match_patterns relative_path nm rest in
        (b, pattern :: seen)
  end.

Definition is_ignored_trace (file_path : path) (ignore_patterns : list string)
  (base_dir : path) : result (bool * list string) :=
  rel ← relative_to file_path base_dir;
  let relative_path := rel_str rel in
  Ok (match_patterns relative_path (name file_path) ignore_patterns).

Definition is_ignored (file_path : path) (ignore_patterns : list string)
  (base_dir : path) : result bool :=
  fst <$> is_ignored_trace file_path ignore_patterns base_dir.

(** *** [concatenate_project] *)

(** [file_path.read_text(encoding="utf-8", errors="ignore")] while the
    output stream on [output_path] is open with [written] in it: the
    text of the file, decoded leniently, with universal newlines. *)
Definition read_text (fs : FS) (output_path : path) (written : list string)
  (file_path : path) : result string :=
  if bool_decide (file_path = output_path) then Ok (flushed written)
  else
    match fs !! file_path with
    | Some (File (Text s)) => Ok (Str.universal_newlines s)
    | Some (File (Garbled s _)) => Ok (Str.universal_newlines s)
    | Some (File (Unreadable msg)) => Raise (OSError msg)
    | Some Dir => Raise (OSError ("Is a directory: " +:+ path_str file_path))
    | None => Raise (OSError ("No such file or directory: " +:+ path_str file_path))
    end.

(** The header line of a file. *)
Definition header_line (file_path : path) : string :=
  let ext := Str.lower (suffix file_path) in
  let start_comment := dict_get comment_syntax ext "#" in
  let end_comment := "" in
  if str_in ext markup_exts
  then start_comment +:+ " File: " +:+ path_str file_path +:+ " " +:+ end_comment +:+ Str.nl
  else start_comment +:+ " File: " +:+ path_str file_path +:+ " " +:+ start_comment +:+ Str.nl.

(** The line written when reading the file raised [e]. *)
Definition error_line (file_path : path) (e : exn) : string :=
  let ext := Str.lower (suffix file_path) in
  let start_comment := dict_get comment_syntax ext "#" in
  let end_comment := "" in
  start_comment +:+ " Could not read file: " +:+ path_str file_path +:+
  " - Error: " +:+ exn_str e +:+ " " +:+ end_comment +:+ Str.nl +:+ Str.nl.

(** The [try] statement: what is written after the header. *)
Definition content_writes (fs : FS) (output_path : path) (written : list string)
  (file_path : path) : list string :=
  match read_text fs output_path written file_path with
  | Ok content => [content; Str.nl +:+ Str.nl]
  | Raise e => [error_line file_path e]
  end.

(** The body of the [for file_path in input_path.rglob("*")] loop:
    [Ok None] where the body writes nothing, [Ok (Some ws)] with the
    writes of an included file, [Raise] where an exception escapes. *)
Definition visit (fs : FS) (input_path output_path : path)
  (ignore_patterns : list string) (written : list string) (file_path : path)
  : result (option (list string)) :=
  if is_file fs file_path then
    ignored ← is_ignored file_path ignore_patterns input_path;
    if (ignored : bool) then Ok None
    else
      let ext := Str.lower (suffix file_path) in
      if negb (dict_in ext comment_syntax) && negb (dict_in (name file_path) comment_syntax)
      then Ok None
      else
        let header := header_line file_path in
        Ok (Some (header ::
                  content_writes fs output_path (written ++ [header]) file_path))
  else Ok None.

(** The loop over the entries that the traversal yields; [done] holds
    the blocks written so far. *)
Fixpoint walk (fs : FS) (input_path output_path : path)
  (ignore_patterns : list string) (done : list block) (entries : list path)
  : option exn * list block :=
  match entries with
  | [] => (None, done)
  | file_path :: rest =>
      match visit fs input_path output_path ignore_patterns (writes done) file_path with
      | Raise e => (Some e, done)
      | Ok None => walk fs input_path output_path ignore_patterns done rest
      | Ok (Some ws) =>
          walk fs input_path output_path ignore_patterns (done ++ [(file_path, ws)]) rest
      end
  end.

(** Lines 126-127: the rules of the run. *)
Definition load_patterns (fs : FS) (input_path : path) : result (list string) :=
  match find_gitignore fs input_path with
  | Some gitignore_path => parse_gitignore fs gitignore_path
  | None => Ok []
  end.

Definition concatenate_project (input_dir output_file : path) (fs : FS)
  : outcome * FS :=
  let input_path := input_dir in
  let output_path := output_file in
  match load_patterns fs input_path with
  | Raise e => (Aborted e [], fs)
  | Ok ignore_patterns =>
      match open_w fs output_path with
      | Raise e => (Aborted e [], fs)
      | Ok fs_open =>
          let '(raised, blocks) :=
            walk fs_open input_path output_path ignore_patterns []
                 (rglob fs_open input_path) in
          let fs_closed := close_w fs_open output_path (writes blocks) in
          match raised with
          | Some e => (Aborted e blocks, fs_closed)
          | None => (Completed blocks, fs_closed)
          end
      end
  end.

(** The three tests of the loop body of [concatenate_project], together:
    the entry is a regular file, the matcher does not ignore it, and the
    table has its extension or its name. *)
Definition included (fs : FS) (input_path : path) (ignore_patterns : list string)
  (file_path : path) : bool :=
  is_file fs file_path &&
  match is_ignored file_path ignore_patterns input_path with
  | Ok false => true
  | _ => false
  end &&
  (dict_in (Str.lower (suffix file_path)) comment_syntax ||
   dict_in (name file_path) comment_syntax).

(** What the loop body writes for an included file. *)
Definition block_writes (fs : FS) (output_path : path) (written : list string)
  (file_path : path) : list string :=
  header_line file_path ::
  content_writes fs output_path (written ++ [header_line file_path]) file_path.

(** *** [main] *)

(** Lines 178-180: the output path the driver is given, with what is
    printed on the way. *)
Definition checked_output_path (output_path : path) : result (list string * path) :=
  if negb (String.eqb (suffix output_path) ".txt") then
    output_path' ← with_suffix output_path ".txt";
    Ok (["Warning: Output filename does not end with '.txt'. Appending '.txt'."],
        output_path')
  else Ok ([], output_path).

(** The arguments are taken as already parsed; the result is what was
    printed, how the call ended and the file system it left.  Where the
    input is no directory, [main] prints the error and returns without
    running the driver. *)
Definition main (input_directory output_filename : path) (fs : FS)
  : list string * outcome * FS :=
  let input_path := input_directory in
  let output_path := output_filename in
  if negb (is_dir fs input_path) then
    (["Error: Input directory '" +:+ path_str input_path +:+ "' not found."],
     Completed [], fs)
  else
    match checked_output_path output_path with
    | Raise e => ([], Aborted e [], fs)
    | Ok (printed, output_path) =>
        match concatenate_project input_path output_path fs with
        | (Completed blocks, fs') =>
            (printed ++
             ["All files from '" +:+ path_str input_path +:+ "' concatenated to '" +:+
              path_str output_path +:+ "'."],
             Completed blocks, fs')
        | (Aborted e blocks, fs') => (printed, Aborted e blocks, fs')
        end
    end.

End Program.

(** ** A reference runtime *)

(** An executable [Runtime] on which the program can be run: shell
    patterns with [*], [?] and bracket classes matched case-sensitively
    (the POSIX behaviour of [fnmatch]), the entries of the traversal in
    the order of the finite map, and an output buffer that holds every
    write until the stream is closed. *)
Module Posix.

Inductive token :=
| TStar
| TAny
| TLit (c : ascii)
| TClass (negated : bool) (members : string).

(** Splits at the first closing bracket. *)
Fixpoint split_close (s : string) : option (string * string) :=
  match s with
  | EmptyString => None
  | String a s' =>
      if Ascii.eqb a "]" then Some (EmptyString, s')
      else match split_close s' with
           | Some (m, r) => Some (String a m, r)
           | None => None
           end
  end.

Fixpoint tokens (fuel : nat) (pat : string) : list token :=
  match fuel, pat with
  | 0, _ => []
  | _, EmptyString => []
  | S fuel', String c r =>
      if Ascii.eqb c "*" then TStar :: tokens fuel' r
      else if Ascii.eqb c "?" then TAny :: tokens fuel' r
      else if Ascii.eqb c "[" then
        let '(neg, r1) :=
          match r with
          | String b r' => if Ascii.eqb b "!" then (true, r') else (false, r)
          | EmptyString => (false, r)
          end in
        let '(lead, r2) :=
          match r1 with
          | String b r' => if Ascii.eqb b "]" then ("]", r') else ("", r1)
          | EmptyString => ("", r1)
          end in
        match split_close r2 with
        | Some (m, r3) => TClass neg (lead +:+ m) :: tokens fuel' r3
        | None => TLit "[" :: tokens fuel' r
        end
      else TLit c :: tokens fuel' r
  end.

(** Membership in a bracket class: single characters and ranges. *)
Fixpoint class_mem (fuel : nat) (members : string) (a : ascii) : bool :=
  match fuel, members with
  | 0, _ => false
  | _, EmptyString => false
  | S fuel', String lo (String dash (String hi r)) =>
      if Ascii.eqb dash "-" then
        ((nat_of_ascii lo <=? nat_of_ascii a)%nat && (nat_of_ascii a <=? nat_of_ascii hi)%nat)
        || class_mem fuel' r a
      else Ascii.eqb lo a || class_mem fuel' (String dash (String hi r)) a
  | S fuel', String c r => Ascii.eqb c a || class_mem fuel' r a
  end.

Fixpoint match_tokens (ts : list token) : string → bool :=
  match ts with
  | [] => fun s => match s with EmptyString => true | _ => false end
  | TStar :: ts' =>
      fix star (s : string) : bool :=
        match_tokens ts' s ||
        match s with
        | EmptyString => false
        | String _ s' => star s'
        end
  | TAny :: ts' =>
      fun s => match s with String _ s' => match_tokens ts' s' | EmptyString => false end
  | TLit c :: ts' =>
      fun s => match s with
               | String a s' => Ascii.eqb a c && match_tokens ts' s'
               | EmptyString => false
               end
  | TClass neg m :: ts' =>
      fun s => match s with
               | String a s' =>
                   xorb neg (class_mem (String.length m) m a) && match_tokens ts' s'
               | EmptyString => false
               end
  end.

Definition glob (nm pat : string) : bool :=
  match_tokens (tokens (String.length pat) pat) nm.

(** [p] lies strictly below [d], as a test. *)
Definition belowb (d p : path) : bool :=
  match relative_to p d with
  | Ok (_ :: _) => true
  | _ => false
  end.

Definition entries (fs : FS) (d : path) : list path :=
  filter (fun p => belowb d p = true) (map fst (map_to_list fs)).

End Posix.

(** ** Example trees *)

(** A small project tree for the examples. *)
Definition fs_demo : FS :=
  list_to_map
    [ ([], Dir);
      (["proj"], Dir);
      (["proj"; ".gitignore"], File (Text ("# build output" +:+ Str.nl +:+ "*.log" +:+ Str.nl)));
      (["proj"; "a.py"], File (Text "print(1)"));
      (["proj"; "a.pyc"], File (Garbled "" "invalid start byte"));
      (["proj"; "app.log"], File (Text "started"));
      (["proj"; "index.html"], File (Text "<p>hi</p>"));
      (["proj"; "secret.py"], File (Unreadable "[Errno 13] Permission denied"));
      (["proj"; "sub"], Dir);
      (["proj"; "sub"; "Makefile"], File (Text "all:")) ].

(** A tree whose rules file does not decode. *)
Definition fs_garbled : FS :=
  list_to_map
    [ ([], Dir);
      (["out.txt"], File (Text "kept"));
      (["proj"], Dir);
      (["proj"; ".gitignore"], File (Garbled "*.log" "invalid continuation byte"));
      (["proj"; "a.py"], File (Text "print(1)")) ].

(** A tree whose only rules file sits in the root directory. *)
Definition fs_root_rules : FS :=
  list_to_map
    [ ([], Dir);
      ([".gitignore"], File (Text "*.py"));
      (["proj"], Dir);
      (["proj"; "a.py"], File (Text "print(1)")) ].

(** A tree with one markup file. *)
Definition fs_html : FS :=
  list_to_map
    [ ([], Dir);
      (["proj"], Dir);
      (["proj"; "index.html"], File (Text "<p>hi</p>")) ].

(** A tree without a rules file. *)
Definition fs_star : FS :=
  list_to_map
    [ ([], Dir);
      (["proj"], Dir);
      (["proj"; "a.py"], File (Text "*")) ].

(** A tree with a file that has the line ends of another system. *)
Definition fs_crlf : FS :=
  list_to_map
    [ ([], Dir);
      (["proj"], Dir);
      (["proj"; "a.py"],
       File (Text ("x = 1" +:+ String "013" (String "010" "y = 2") +:+ String "013" "z"))) ].

(** * Properties *)

(** ** Paths and strings *)

Lemma relative_to_Ok (p base rel : path) :
  relative_to p base = Ok rel ↔ p = base ++ rel.
Proof.
  revert p. induction base as [|b base IH]; intros p; simpl.
  - split; [intros [= ->]; done | intros ->; done].
  - destruct p as [|s p]; [split; [done | intros [=]] |].
    destruct (String.eqb_spec b s) as [->|Hne].
    + rewrite IH. split; [intros ->; done | intros [= ->]; done].
    + split; [done | intros [= ? ?]; done].
Qed.

Lemma relative_to_app (base rel : path) : relative_to (base ++ rel) base = Ok rel.
Proof. by apply relative_to_Ok. Qed.

Lemma belowb_below (d p : path) : Posix.belowb d p = true ↔ below d p.
Proof.
  unfold Posix.belowb, below. split.
  - destruct (relative_to p d) as [rel|e] eqn:E; [|done].
    destruct rel as [|s rel]; [done|]. intros _.
    apply relative_to_Ok in E. by exists (s :: rel).
  - intros (rel & Hne & ->). rewrite relative_to_app. by destruct rel.
Qed.

Lemma entries_spec (fs : FS) (d p : path) :
  p ∈ Posix.entries fs d ↔ below d p ∧ is_Some (fs !! p).
Proof.
  unfold Posix.entries. rewrite list_elem_of_filter, belowb_below.
  rewrite list_elem_of_fmap. split.
  - intros [Hb ([q x] & -> & Hin)]. split; [done|].
    apply elem_of_map_to_list in Hin. by exists x.
  - intros [Hb [x Hx]]. split; [done|].
    exists (p, x). split; [done|]. by apply elem_of_map_to_list.
Qed.

(** The reference runtime. *)
Definition posix : Runtime := {|
  fnmatch := Posix.glob;
  rglob := Posix.entries;
  rglob_spec := entries_spec;
  flushed := fun _ => ""
|}.

(** ** The matcher *)

Section Matcher.
Context `{Runtime}.

(** A pattern matches a file when it matches the relative path or the
    bare name. *)
Lemma match_patterns_existsb (relative_path nm : string) (pats : list string) :
  fst (match_patterns relative_path nm pats) =
  existsb (fun pat => fnmatch relative_path pat || fnmatch nm pat) pats.
Proof.
  induction pats as [|pat pats IH]; simpl; [done|].
  destruct (fnmatch relative_path pat || fnmatch nm pat); simpl; [done|].
  destruct (match_patterns relative_path nm pats) as [b seen]. exact IH.
Qed.

Lemma match_patterns_true (relative_path nm : string) (pats : list string) :
  fst (match_patterns relative_path nm pats) = true ↔
  ∃ pat, pat ∈ pats ∧
         (fnmatch relative_path pat = true ∨ fnmatch nm pat = true).
Proof.
  rewrite match_patterns_existsb, existsb_exists. split.
  - intros (pat & Hin & Hm). exists pat. rewrite list_elem_of_In.
    by apply orb_true_iff in Hm.
  - intros (pat & Hin & Hm). exists pat. rewrite <- list_elem_of_In.
    by rewrite orb_true_iff.
Qed.

(** The loop stops at the first matching pattern: it has evaluated the
    patterns before it, which do not match, and that pattern; without a
    match it has evaluated them all. *)
Lemma match_patterns_seen (relative_path nm : string) (pats : list string) :
  let hit pat := fnmatch relative_path pat || fnmatch nm pat in
  match match_patterns relative_path nm pats with
  | (true, seen) =>
      ∃ pre pat post, pats = pre ++ pat :: post ∧ seen = pre ++ [pat] ∧
                      hit pat = true ∧ ∀ q, q ∈ pre → hit q = false
  | (false, seen) => seen = pats ∧ ∀ q, q ∈ pats → hit q = false
  end.
Proof.
  intros hit. induction pats as [|pat pats IH]; simpl.
  - split; [done|]. intros q Hq. by apply elem_of_nil in Hq.
  - fold (hit pat). destruct (hit pat) eqn:Hp.
    + exists [], pat, pats. repeat split; try done.
      intros q Hq. by apply elem_of_nil in Hq.
    + destruct (match_patterns relative_path nm pats) as [[|] seen].
      * destruct IH as (pre & pat' & post & -> & -> & Hhit & Hpre).
        exists (pat :: pre), pat', post. repeat split; try done.
        intros q [->|Hq]%elem_of_cons; [done | by apply Hpre].
      * destruct IH as [-> Hall]. split; [done|].
        intros q [->|Hq]%elem_of_cons; [done | by apply Hall].
Qed.

Lemma is_ignored_below (base rel : path) (pats : list string) :
  is_ignored (base ++ rel) pats base =
  Ok (fst (match_patterns (rel_str rel) (name (base ++ rel)) pats)).
Proof.
  unfold is_ignored, is_ignored_trace. by rewrite relative_to_app.
Qed.

(** The answer depends on the set of patterns only. *)
Lemma is_ignored_same_patterns (file_path base : path) (l1 l2 : list string) :
  (∀ pat, pat ∈ l1 ↔ pat ∈ l2) →
  is_ignored file_path l1 base = is_ignored file_path l2 base.
Proof.
  intros Hsame. unfold is_ignored, is_ignored_trace.
  destruct (relative_to file_path base) as [rel|e]; [|done]. simpl.
  f_equal.
  destruct (fst (match_patterns (rel_str rel) (name file_path) l2)) eqn:E2.
  - apply match_patterns_true in E2 as (pat & Hin & Hm).
    apply match_patterns_true. exists pat. by rewrite Hsame.
  - destruct (fst (match_patterns (rel_str rel) (name file_path) l1)) eqn:E1; [|done].
    apply match_patterns_true in E1 as (pat & Hin & Hm).
    rewrite <- E2. symmetry. apply match_patterns_true.
    exists pat. by rewrite <- Hsame.
Qed.

End Matcher.

(** C6.  For a file under the base directory the matcher returns a
    boolean and never raises; the boolean is [true] exactly when some
    pattern of the rule set matches the base-relative path or the bare
    file name; and the loop short-circuits: on a match it has evaluated
    the patterns up to and including the first matching one and none
    after it, otherwise it has evaluated every pattern. *)
Theorem is_ignored_decision `{Runtime} (base rel : path) (pats : list string) :
  let file_path := base ++ rel in
  let hit pat := fnmatch (rel_str rel) pat || fnmatch (name file_path) pat in
  ∃ (b : bool) (seen : list string),
    is_ignored_trace file_path pats base = Ok (b, seen) ∧
    is_ignored file_path pats base = Ok b ∧
    (b = true ↔
     ∃ pat, pat ∈ pats ∧
            (fnmatch (rel_str rel) pat = true ∨ fnmatch (name file_path) pat = true)) ∧
    (if b
     then ∃ pre pat post, pats = pre ++ pat :: post ∧ seen = pre ++ [pat] ∧
                          hit pat = true ∧ ∀ q, q ∈ pre → hit q = false
     else seen = pats).
Proof.
  intros file_path hit.
  pose proof (match_patterns_seen (rel_str rel) (name file_path) pats) as Hseen.
  pose proof (match_patterns_true (rel_str rel) (name file_path) pats) as Htrue.
  unfold is_ignored, is_ignored_trace, file_path. rewrite relative_to_app. simpl.
  fold file_path.
  destruct (match_patterns (rel_str rel) (name file_path) pats) as [b seen].
  exists b, seen. simpl in *. repeat split; try done; try apply Htrue.
  destruct b; [exact Hseen | by destruct Hseen].
Qed.

(** C7.  The decision of the matcher is the same for any two rule sets
    that are permutations of each other, and more generally for any two
    that list the same patterns, whatever the order and the number of
    copies of each. *)
Theorem is_ignored_order_and_copies `{Runtime} (file_path base : path)
  (l1 l2 : list string) :
  (l1 ≡ₚ l2 → is_ignored file_path l1 base = is_ignored file_path l2 base) ∧
  ((∀ pat, pat ∈ l1 ↔ pat ∈ l2) →
   is_ignored file_path l1 base = is_ignored file_path l2 base).
Proof.
  split.
  - intros Hperm. apply is_ignored_same_patterns. intros pat. by rewrite Hperm.
  - apply is_ignored_same_patterns.
Qed.

Lemma is_ignored_order_and_copies_witness :
  (@is_ignored posix ["proj"; "app.log"] ["*.py"; "*.log"] ["proj"] =
   @is_ignored posix ["proj"; "app.log"] ["*.log"; "*.py"] ["proj"]) ∧
  (@is_ignored posix ["proj"; "app.log"] ["*.py"; "*.log"] ["proj"] =
   @is_ignored posix ["proj"; "app.log"] ["*.log"; "*.py"; "*.log"] ["proj"]).
Proof.
  split.
  - apply (proj1 (@is_ignored_order_and_copies posix ["proj"; "app.log"] ["proj"]
                    ["*.py"; "*.log"] ["*.log"; "*.py"])).
    apply perm_swap.
  - apply (proj2 (@is_ignored_order_and_copies posix ["proj"; "app.log"] ["proj"]
                    ["*.py"; "*.log"] ["*.log"; "*.py"; "*.log"])).
    intros pat. rewrite !elem_of_cons, !elem_of_nil. tauto.
Defined.

(** The loop stops at [*.log] and does not reach the third pattern. *)
Example is_ignored_trace_app_log :
  @is_ignored_trace posix ["proj"; "app.log"] ["*.py"; "*.log"; "app.*"] ["proj"] =
  Ok (true, ["*.py"; "*.log"]).
Proof. vm_compute. reflexivity. Qed.

(** A pattern is tried on the relative path and on the bare name. *)
Example is_ignored_nested :
  @is_ignored posix ["proj"; "sub"; "x.o"] ["sub/*.o"] ["proj"] = Ok true ∧
  @is_ignored posix ["proj"; "sub"; "x.o"] ["x.?"] ["proj"] = Ok true ∧
  @is_ignored posix ["proj"; "sub"; "x.o"] ["proj/*"] ["proj"] = Ok false ∧
  @is_ignored posix ["other"; "x.o"] ["*"] ["proj"] = Raise (ValueError "is not in the subpath").
Proof. vm_compute. done. Qed.

(** ** The driver *)


Section Driver.
Context `{Runtime}.
Variables (fs : FS) (input_path output_path : path) (pats : list string).

Lemma visit_not_raised (written : list string) (file_path : path) :
  (∀ e, is_ignored file_path pats input_path ≠ Raise e) →
  visit fs input_path output_path pats written file_path =
  Ok (if included fs input_path pats file_path
      then Some (block_writes fs output_path written file_path) else None).
Proof.
  intros Hok. unfold visit, included, block_writes.
  destruct (is_file fs file_path); [|done]. simpl.
  destruct (is_ignored file_path pats input_path) as [[|]|e]; simpl; [done| |by destruct (Hok e)].
  destruct (dict_in (Str.lower (suffix file_path)) comment_syntax),
           (dict_in (name file_path) comment_syntax); done.
Qed.

Lemma visit_included (written : list string) (file_path : path) (ws : list string) :
  visit fs input_path output_path pats written file_path = Ok (Some ws) →
  included fs input_path pats file_path = true ∧
  ws = block_writes fs output_path written file_path.
Proof.
  unfold visit, included, block_writes.
  destruct (is_file fs file_path); [|done]. simpl.
  destruct (is_ignored file_path pats input_path) as [[|]|e]; simpl; [done| |done].
  destruct (dict_in (Str.lower (suffix file_path)) comment_syntax),
           (dict_in (name file_path) comment_syntax); simpl; intros [= <-]; done.
Qed.

(** Whatever the walk adds to the output is the block of an included
    entry, also when an exception cuts it short. *)
Lemma walk_sound (done : list block) (entries : list path) :
  ∃ new, snd (walk fs input_path output_path pats done entries) = done ++ new ∧
         ∀ p ws, (p, ws) ∈ new →
                 p ∈ entries ∧ included fs input_path pats p = true ∧
                 ∃ written, ws = block_writes fs output_path written p.
Proof.
  revert done. induction entries as [|q entries IH]; intros done; simpl.
  - exists []. split; [by rewrite app_nil_r|]. intros p ws Hin.
    by apply elem_of_nil in Hin.
  - destruct (visit fs input_path output_path pats (writes done) q) as [[ws|]|e] eqn:Ev.
    + apply visit_included in Ev as [Hinc ->].
      destruct (IH (done ++ [(q, block_writes fs output_path (writes done) q)]))
        as (new & Hnew & Hall).
      exists ((q, block_writes fs output_path (writes done) q) :: new).
      split; [by rewrite Hnew, <- app_assoc|].
      intros p ws [[= -> ->]|Hin]%elem_of_cons.
      * split; [left|]. eauto.
      * destruct (Hall p ws Hin) as (? & ? & ?). split; [by right | done].
    + destruct (IH done) as (new & Hnew & Hall). exists new. split; [done|].
      intros p ws Hin. destruct (Hall p ws Hin) as (? & ? & ?).
      split; [by right | done].
    + exists []. split; [by rewrite app_nil_r|]. intros p ws Hin.
      by apply elem_of_nil in Hin.
Qed.

(** Where the matcher does not raise, the walk runs to its end and
    every included entry gets a block. *)
Lemma walk_complete (done : list block) (entries : list path) :
  (∀ q e, q ∈ entries → is_ignored q pats input_path ≠ Raise e) →
  fst (walk fs input_path output_path pats done entries) = None ∧
  ∀ p, p ∈ entries → included fs input_path pats p = true →
       ∃ ws, (p, ws) ∈ snd (walk fs input_path output_path pats done entries).
Proof.
  revert done. induction entries as [|q entries IH]; intros done Hok; simpl.
  - split; [done|]. intros p Hin. by apply elem_of_nil in Hin.
  - rewrite visit_not_raised by (intros e; apply Hok; left).
    assert (Hok' : ∀ q' e, q' ∈ entries → is_ignored q' pats input_path ≠ Raise e)
      by (intros q' e Hin; apply Hok; by right).
    destruct (included fs input_path pats q) eqn:Hq.
    + destruct (IH (done ++ [(q, block_writes fs output_path (writes done) q)]) Hok')
        as [Hfst Hall].
      split; [done|]. intros p [->|Hin]%elem_of_cons Hp; [|by apply Hall].
      destruct (walk_sound (done ++ [(q, block_writes fs output_path (writes done) q)]) entries)
        as (new & -> & _).
      exists (block_writes fs output_path (writes done) q).
      rewrite !elem_of_app, list_elem_of_singleton. by left; right.
    + destruct (IH done Hok') as [Hfst Hall]. split; [done|].
      intros p [->|Hin]%elem_of_cons Hp; [congruence | by apply Hall].
Qed.

(** The tests, read on a path below the input directory. *)
Lemma included_below (rel : path) :
  included fs input_path pats (input_path ++ rel) = true ↔
  is_file fs (input_path ++ rel) = true ∧
  (∀ pat, pat ∈ pats →
          fnmatch (rel_str rel) pat = false ∧
          fnmatch (name (input_path ++ rel)) pat = false) ∧
  (dict_in (Str.lower (suffix (input_path ++ rel))) comment_syntax = true ∨
   dict_in (name (input_path ++ rel)) comment_syntax = true).
Proof.
  unfold included. rewrite is_ignored_below.
  rewrite !andb_true_iff, orb_true_iff.
  pose proof (match_patterns_true (rel_str rel) (name (input_path ++ rel)) pats) as Ht.
  destruct (fst (match_patterns (rel_str rel) (name (input_path ++ rel)) pats)) eqn:E.
  - split; [intros [[_ ?] _]; done|]. intros (_ & Hno & _).
    destruct Ht as [Ht _]. destruct (Ht eq_refl) as (pat & Hin & Hm).
    destruct (Hno pat Hin) as [H1 H2]. destruct Hm; congruence.
  - split.
    + intros [[? _] ?]. repeat split; try done.
      * destruct (fnmatch (rel_str rel) pat) eqn:E1; [|done].
        destruct Ht as [_ Ht]. assert (false = true); [|done]. apply Ht. eauto.
      * destruct (fnmatch (name (input_path ++ rel)) pat) eqn:E1; [|done].
        destruct Ht as [_ Ht]. assert (false = true); [|done]. apply Ht. eauto.
    + intros (? & _ & ?). done.
Qed.

End Driver.

(** Opening a path that does not exist yet, in an existing directory. *)
Lemma open_w_fresh (fs : FS) (p : path) :
  fs !! p = None → is_dir fs (parent p) = true →
  open_w fs p = Ok (<[p := File (Text "")]> fs).
Proof. unfold open_w. by intros -> ->. Qed.

(** A run that has its rules and its output stream completes; its
    blocks are those of the included entries of the traversal. *)
Lemma run_completes `{Runtime} (input_path output_path : path) (fs fs_open : FS)
  (pats : list string) :
  load_patterns fs input_path = Ok pats →
  open_w fs output_path = Ok fs_open →
  ∃ blocks,
    concatenate_project input_path output_path fs =
      (Completed blocks, close_w fs_open output_path (writes blocks)) ∧
    (∀ p ws, (p, ws) ∈ blocks →
       p ∈ rglob fs_open input_path ∧ included fs_open input_path pats p = true ∧
       ∃ written, ws = block_writes fs_open output_path written p) ∧
    ∀ p, p ∈ rglob fs_open input_path → included fs_open input_path pats p = true →
         ∃ ws, (p, ws) ∈ blocks.
Proof.
  intros Hload Hopen. unfold concatenate_project. rewrite Hload, Hopen.
  assert (Hbelow : ∀ q e, q ∈ rglob fs_open input_path →
                          is_ignored q pats input_path ≠ Raise e).
  { intros q e [(rel & _ & ->) _]%rglob_spec. by rewrite is_ignored_below. }
  destruct (walk_complete fs_open input_path output_path pats [] _ Hbelow) as [Hfst Hall].
  destruct (walk_sound fs_open input_path output_path pats [] (rglob fs_open input_path))
    as (new & Hsnd & Hnew).
  destruct (walk fs_open input_path output_path pats [] (rglob fs_open input_path))
    as [raised blocks].
  simpl in *. subst. by exists new.
Qed.

(** ** What the output file holds *)

Lemma append_empty_r (s : string) : s +:+ "" = s.
Proof.
  induction s as [|a s IH]; [done|].
  change (String a (s +:+ "") = String a s). by rewrite IH.
Qed.

Lemma append_assoc_str (a b c : string) : (a +:+ b) +:+ c = a +:+ (b +:+ c).
Proof.
  induction a as [|x a IH]; [done|].
  change (String x ((a +:+ b) +:+ c) = String x (a +:+ (b +:+ c))). by rewrite IH.
Qed.

(** [''.join(l)] is the concatenation of the library. *)
Lemma str_concat_join (l : list string) : Str.concat l = String.concat "" l.
Proof.
  induction l as [|x l IH]; [done|].
  change (Str.concat (x :: l)) with (x +:+ Str.concat l). rewrite IH.
  destruct l as [|y l]; [apply append_empty_r | done].
Qed.

Lemma string_concat_app (l1 l2 : list string) :
  String.concat "" (l1 ++ l2) = String.concat "" l1 +:+ String.concat "" l2.
Proof.
  rewrite <- !str_concat_join. induction l1 as [|x l1 IH]; [done|].
  change (x +:+ Str.concat (l1 ++ l2) = (x +:+ Str.concat l1) +:+ Str.concat l2).
  by rewrite IH, append_assoc_str.
Qed.

(** The header line, written out. *)
Lemma header_line_explicit (p : path) :
  header_line p =
  dict_get comment_syntax (Str.lower (suffix p)) "#" +:+ " File: " +:+ path_str p +:+ " " +:+
  (if str_in (Str.lower (suffix p)) markup_exts then ""
   else dict_get comment_syntax (Str.lower (suffix p)) "#") +:+ Str.nl.
Proof.
  unfold header_line. by destruct (str_in (Str.lower (suffix p)) markup_exts).
Qed.

(** The run, with the text it leaves in the output file: the strings of
    its blocks, one after the other.  Each block is the header line of
    its file followed by what the read gave, the text and a blank line or
    the line for the error, and stands as a whole in the output text. *)
Lemma run_output `{Runtime} (input_path output_path : path) (fs fs_open : FS)
  (pats : list string) :
  load_patterns fs input_path = Ok pats →
  open_w fs output_path = Ok fs_open →
  ∃ blocks out_text,
    concatenate_project input_path output_path fs =
      (Completed blocks, <[output_path := File (Text out_text)]> fs_open) ∧
    out_text = String.concat "" (concat (map snd blocks)) ∧
    (∀ p ws, (p, ws) ∈ blocks →
       p ∈ rglob fs_open input_path ∧ included fs_open input_path pats p = true ∧
       (∃ written,
          match read_text fs_open output_path (written ++ [header_line p]) p with
          | Ok content => ws = [header_line p; content; Str.nl +:+ Str.nl]
          | Raise e => ws = [header_line p; error_line p e]
          end) ∧
       ∃ before after, out_text = before +:+ String.concat "" ws +:+ after) ∧
    ∀ p, p ∈ rglob fs_open input_path → included fs_open input_path pats p = true →
         ∃ ws, (p, ws) ∈ blocks.
Proof.
  intros Hload Hopen.
  destruct (run_completes input_path output_path fs fs_open pats Hload Hopen)
    as (blocks & Hrun & Hnew & Hall).
  exists blocks, (String.concat "" (concat (map snd blocks))).
  split; [|split; [reflexivity|split; [|exact Hall]]].
  - rewrite Hrun. unfold close_w, writes. by rewrite str_concat_join.
  - intros p ws Hin. destruct (Hnew p ws Hin) as (Hrg & Hinc & written & Hws).
    split; [exact Hrg|]. split; [exact Hinc|]. split.
    + exists written. unfold block_writes, content_writes in Hws.
      by destruct (read_text fs_open output_path (written ++ [header_line p]) p).
    + apply list_elem_of_split in Hin as (l1 & l2 & ->).
      exists (String.concat "" (concat (map snd l1))),
             (String.concat "" (concat (map snd l2))).
      rewrite map_app, concat_app. simpl. by rewrite !string_concat_app.
Qed.

(** C1.  Once the rules are loaded and the output file is open, the run
    completes and the output file holds the strings of its blocks, one
    after the other.  The block of a file is its header line (the marker
    of the table, [File:], the path, and the marker again unless the
    extension is one of the four markup ones) followed by the text that
    reading the file gave and a blank line, or by the line for the error
    where the read raised; it stands as a whole in the text of the output
    file.  And a path has a block if and only if (a) it is a regular file
    below the input directory, (b) no pattern of the rule set matches its
    path relative to the input directory or its bare name, and (c) its
    lowercased extension or its exact name is a key of the extension
    table. *)
Theorem block_iff_included `{Runtime} (input_path output_path : path) (fs fs_open : FS)
  (pats : list string) :
  load_patterns fs input_path = Ok pats →
  open_w fs output_path = Ok fs_open →
  ∃ blocks out_text,
    concatenate_project input_path output_path fs =
      (Completed blocks, <[output_path := File (Text out_text)]> fs_open) ∧
    out_text = String.concat "" (concat (map snd blocks)) ∧
    (∀ p ws, (p, ws) ∈ blocks →
       let ext := Str.lower (suffix p) in
       let marker := dict_get comment_syntax ext "#" in
       let header :=
         marker +:+ " File: " +:+ path_str p +:+ " " +:+
         (if str_in ext markup_exts then "" else marker) +:+ Str.nl in
       (∃ written,
          match read_text fs_open output_path (written ++ [header]) p with
          | Ok content => ws = [header; content; Str.nl +:+ Str.nl]
          | Raise e => ws = [header; error_line p e]
          end) ∧
       ∃ before after, out_text = before +:+ String.concat "" ws +:+ after) ∧
    ∀ p, (∃ ws, (p, ws) ∈ blocks) ↔
         (is_file fs_open p = true ∧ below input_path p) ∧
         (∀ pat, pat ∈ pats →
            fnmatch (rel_str (drop (length input_path) p)) pat = false ∧
            fnmatch (name p) pat = false) ∧
         (dict_in (Str.lower (suffix p)) comment_syntax = true ∨
          dict_in (name p) comment_syntax = true).
Proof.
  intros Hload Hopen.
  destruct (run_output input_path output_path fs fs_open pats Hload Hopen)
    as (blocks & out_text & Hrun & Hout & Hnew & Hall).
  exists blocks, out_text. split; [exact Hrun|]. split; [exact Hout|]. split.
  - intros p ws Hin ext marker header.
    assert (Hhead : header = header_line p)
      by (symmetry; apply header_line_explicit).
    rewrite Hhead. destruct (Hnew p ws Hin) as (_ & _ & Hshape & Hin_text).
    by split.
  - intros p. split.
    + intros [ws Hin].
      destruct (Hnew p ws Hin) as ([(rel & Hne & ->) Hsome]%rglob_spec & Hinc & _).
      apply included_below in Hinc as (Hf & Hpat & Hkey).
      rewrite drop_app_length. repeat split; try done; try apply Hpat; try done.
      by exists rel.
    + intros ([Hf (rel & Hne & ->)] & Hpat & Hkey).
      rewrite drop_app_length in Hpat. apply Hall.
      * apply rglob_spec. split; [by exists rel|].
        unfold is_file in Hf. destruct (fs_open !! (input_path ++ rel)); [by eexists | done].
      * by apply included_below.
Qed.

Lemma block_iff_included_witness :
  ∃ blocks out_text,
    @concatenate_project posix ["proj"] ["out.txt"] fs_demo =
      (Completed blocks,
       <[["out.txt"] := File (Text out_text)]> (<[["out.txt"] := File (Text "")]> fs_demo)) ∧
    out_text = String.concat "" (concat (map snd blocks)) ∧
    (∀ p ws, (p, ws) ∈ blocks →
       let ext := Str.lower (suffix p) in
       let marker := dict_get comment_syntax ext "#" in
       let header :=
         marker +:+ " File: " +:+ path_str p +:+ " " +:+
         (if str_in ext markup_exts then "" else marker) +:+ Str.nl in
       (∃ written,
          match @read_text posix (<[["out.txt"] := File (Text "")]> fs_demo) ["out.txt"]
                  (written ++ [header]) p with
          | Ok content => ws = [header; content; Str.nl +:+ Str.nl]
          | Raise e => ws = [header; error_line p e]
          end) ∧
       ∃ before after, out_text = before +:+ String.concat "" ws +:+ after) ∧
    ∀ p, (∃ ws, (p, ws) ∈ blocks) ↔
         (is_file (<[["out.txt"] := File (Text "")]> fs_demo) p = true ∧ below ["proj"] p) ∧
         (∀ pat, pat ∈ ["*.log"] →
            @fnmatch posix (rel_str (drop (length ["proj"]) p)) pat = false ∧
            @fnmatch posix (name p) pat = false) ∧
         (dict_in (Str.lower (suffix p)) comment_syntax = true ∨
          dict_in (name p) comment_syntax = true).
Proof.
  apply (@block_iff_included posix ["proj"] ["out.txt"] fs_demo
           (<[["out.txt"] := File (Text "")]> fs_demo) ["*.log"]).
  - vm_compute. reflexivity.
  - apply open_w_fresh; vm_compute; reflexivity.
Defined.

(** The run on the example tree: [app.log] is ignored by the rule,
    [a.pyc] has no key in the table, the other files have a block each. *)
Example run_demo_paths :
  (outcome_blocks (@concatenate_project posix ["proj"] ["out.txt"] fs_demo).1).*1 =
  [["proj"; "secret.py"]; ["proj"; "a.py"]; ["proj"; "index.html"];
   ["proj"; ".gitignore"]; ["proj"; "sub"; "Makefile"]].
Proof. vm_compute. reflexivity. Qed.

Example run_demo_a_py :
  (["proj"; "a.py"], ["# File: /proj/a.py #" +:+ Str.nl; "print(1)"; Str.nl +:+ Str.nl]) ∈
  outcome_blocks (@concatenate_project posix ["proj"] ["out.txt"] fs_demo).1.
Proof. vm_compute. apply list_elem_of_In. simpl. tauto. Qed.

(** A read that fails is caught: the body writes the header and one
    line for the error, and raises nothing. *)
Lemma visit_unreadable `{Runtime} (fs : FS) (input_path output_path : path)
  (pats written : list string) (p : path) (msg : string) :
  included fs input_path pats p = true →
  p ≠ output_path →
  fs !! p = Some (File (Unreadable msg)) →
  visit fs input_path output_path pats written p =
  Ok (Some [header_line p; error_line p (OSError msg)]).
Proof.
  intros Hinc Hne Hp. rewrite visit_not_raised.
  - rewrite Hinc. unfold block_writes, content_writes, read_text.
    rewrite bool_decide_eq_false_2 by done. by rewrite Hp.
  - intros e He. unfold included in Hinc. rewrite He in Hinc.
    by rewrite andb_false_r in Hinc.
Qed.

(** C4.  An eligible file that cannot be read does not abort the run:
    the run completes, and the text it leaves in the output file, the
    strings of its blocks one after the other, has the header line of the
    file followed at once by one comment-style line that names the
    failure, the path and the description of the error, where the
    content would be; this is the one block of the file, and the walk
    goes on with the remaining entries. *)
Theorem unreadable_file_is_recorded `{Runtime} (input_path output_path : path)
  (fs fs_open : FS) (pats : list string) (p : path) (msg : string) :
  load_patterns fs input_path = Ok pats →
  open_w fs output_path = Ok fs_open →
  below input_path p →
  fs_open !! p = Some (File (Unreadable msg)) →
  is_ignored p pats input_path = Ok false →
  dict_in (Str.lower (suffix p)) comment_syntax = true ∨
  dict_in (name p) comment_syntax = true →
  let failure :=
    dict_get comment_syntax (Str.lower (suffix p)) "#" +:+ " Could not read file: " +:+
    path_str p +:+ " - Error: " +:+ msg +:+ " " +:+ Str.nl +:+ Str.nl in
  (∃ blocks out_text,
     concatenate_project input_path output_path fs =
       (Completed blocks, <[output_path := File (Text out_text)]> fs_open) ∧
     out_text = String.concat "" (concat (map snd blocks)) ∧
     (∃ before after, out_text = before +:+ header_line p +:+ failure +:+ after) ∧
     (p, [header_line p; failure]) ∈ blocks ∧
     ∀ ws, (p, ws) ∈ blocks → ws = [header_line p; failure]) ∧
  ∀ done rest,
    walk fs_open input_path output_path pats done (p :: rest) =
    walk fs_open input_path output_path pats (done ++ [(p, [header_line p; failure])]) rest.
Proof.
  intros Hload Hopen Hbelow Hp Hign Hkey failure.
  assert (Hout : p ≠ output_path).
  { intros ->. unfold open_w in Hopen.
    destruct (fs !! output_path) as [[|c]|]; try done;
      destruct (is_dir fs (parent output_path)); try done;
      injection Hopen as <-; by rewrite lookup_insert_eq in Hp. }
  assert (Hinc : included fs_open input_path pats p = true).
  { unfold included, is_file. rewrite Hp, Hign. simpl.
    destruct Hkey as [-> | ->]; [done | by rewrite orb_true_r]. }
  assert (Hread : ∀ written, read_text fs_open output_path written p = Raise (OSError msg)).
  { intros written. unfold read_text.
    rewrite bool_decide_eq_false_2 by done. by rewrite Hp. }
  split.
  - destruct (run_output input_path output_path fs fs_open pats Hload Hopen)
      as (blocks & out_text & Hrun & Hout_text & Hnew & Hall).
    exists blocks, out_text. split; [exact Hrun|]. split; [exact Hout_text|].
    assert (Hsame : ∀ ws, (p, ws) ∈ blocks → ws = [header_line p; failure]).
    { intros ws Hin. destruct (Hnew p ws Hin) as (_ & _ & [written Hws] & _).
      by rewrite Hread in Hws. }
    destruct (Hall p) as [ws Hin]; [|exact Hinc|].
    { apply rglob_spec. split; [done | by rewrite Hp]. }
    pose proof (Hsame ws Hin) as ->.
    split; [|split; [exact Hin | exact Hsame]].
    destruct (Hnew p _ Hin) as (_ & _ & _ & before & after & Htext).
    exists before, after. rewrite Htext. f_equal.
    change (String.concat "" [header_line p; failure]) with (header_line p +:+ failure).
    apply append_assoc_str.
  - intros done rest. simpl. by rewrite (visit_unreadable _ _ _ _ _ _ msg).
Qed.

Lemma unreadable_file_is_recorded_witness :
  let failure :=
    "# Could not read file: /proj/secret.py - Error: [Errno 13] Permission denied " +:+
    Str.nl +:+ Str.nl in
  let fs_open := <[["out.txt"] := File (Text "")]> fs_demo in
  (∃ blocks out_text,
     @concatenate_project posix ["proj"] ["out.txt"] fs_demo =
       (Completed blocks, <[["out.txt"] := File (Text out_text)]> fs_open) ∧
     out_text = String.concat "" (concat (map snd blocks)) ∧
     (∃ before after,
        out_text = before +:+ header_line ["proj"; "secret.py"] +:+ failure +:+ after) ∧
     (["proj"; "secret.py"], [header_line ["proj"; "secret.py"]; failure]) ∈ blocks ∧
     ∀ ws, (["proj"; "secret.py"], ws) ∈ blocks →
           ws = [header_line ["proj"; "secret.py"]; failure]) ∧
  ∀ done rest,
    @walk posix fs_open ["proj"] ["out.txt"] ["*.log"] done (["proj"; "secret.py"] :: rest) =
    @walk posix fs_open ["proj"] ["out.txt"] ["*.log"]
      (done ++ [(["proj"; "secret.py"], [header_line ["proj"; "secret.py"]; failure])]) rest.
Proof.
  apply (@unreadable_file_is_recorded posix ["proj"] ["out.txt"] fs_demo
           (<[["out.txt"] := File (Text "")]> fs_demo) ["*.log"]
           ["proj"; "secret.py"] "[Errno 13] Permission denied").
  - vm_compute. reflexivity.
  - apply open_w_fresh; vm_compute; reflexivity.
  - exists ["secret.py"]. split; [discriminate | reflexivity].
  - vm_compute. reflexivity.
  - vm_compute. reflexivity.
  - left. vm_compute. reflexivity.
Defined.

(** ** Errors on the rules file *)

(** C9.  When the rules file is found and reading or decoding it raises,
    the driver ends with that exception before it opens the output file:
    nothing is written and the file system, with the output file in it,
    is as it was.  [main] does not catch the exception either. *)
Theorem rules_error_aborts_before_open `{Runtime} (input_path : path) (fs : FS)
  (gitignore_path : path) (e : exn) :
  find_gitignore fs input_path = Some gitignore_path →
  parse_gitignore fs gitignore_path = Raise e →
  (∀ output_path,
     concatenate_project input_path output_path fs = (Aborted e [], fs)) ∧
  (∀ output_filename printed output_path,
     is_dir fs input_path = true →
     checked_output_path output_filename = Ok (printed, output_path) →
     main input_path output_filename fs = (printed, Aborted e [], fs)).
Proof.
  intros Hfind Hparse.
  assert (Hrun : ∀ output_path,
            concatenate_project input_path output_path fs = (Aborted e [], fs)).
  { intros output_path. unfold concatenate_project, load_patterns.
    by rewrite Hfind, Hparse. }
  split; [done|].
  intros output_filename printed output_path Hdir Hout. unfold main.
  by rewrite Hdir, Hout, Hrun.
Qed.

Lemma rules_error_aborts_before_open_witness :
  (∀ output_path,
     @concatenate_project posix ["proj"] output_path fs_garbled =
     (Aborted (UnicodeDecodeError "invalid continuation byte") [], fs_garbled)) ∧
  (∀ output_filename printed output_path,
     is_dir fs_garbled ["proj"] = true →
     checked_output_path output_filename = Ok (printed, output_path) →
     @main posix ["proj"] output_filename fs_garbled =
     (printed, Aborted (UnicodeDecodeError "invalid continuation byte") [], fs_garbled)).
Proof.
  apply (@rules_error_aborts_before_open posix ["proj"] fs_garbled ["proj"; ".gitignore"]
           (UnicodeDecodeError "invalid continuation byte")).
  - vm_compute. reflexivity.
  - vm_compute. reflexivity.
Defined.

(** ** The output file is not an input *)

Lemma dict_lookup_none (d : dict) (k : string) (P : string → bool) :
  forallb (fun kv => negb (P kv.1)) d = true → P k = true → dict_lookup d k = None.
Proof.
  intros Hall Hk. induction d as [|[k' v] d IH]; simpl in *; [done|].
  apply andb_true_iff in Hall as [Hk' Hall].
  destruct (String.eqb_spec k' k) as [->|Hne]; [|by apply IH].
  by rewrite Hk in Hk'.
Qed.

(** No key of the table is a file name with the extension [.txt]. *)
Lemma txt_is_no_key (p : path) :
  suffix p = ".txt" →
  dict_in (Str.lower (suffix p)) comment_syntax = false ∧
  dict_in (name p) comment_syntax = false.
Proof.
  intros Hs. split; [by rewrite Hs|].
  unfold dict_in.
  rewrite (dict_lookup_none comment_syntax (name p)
             (fun k => String.eqb (name_suffix k) ".txt")); [done|done|].
  unfold suffix in Hs. rewrite Hs. done.
Qed.

Lemma string_length_app (a b : string) :
  String.length (a +:+ b) = String.length a + String.length b.
Proof. induction a as [|c a IH]; simpl; [done | by rewrite IH]. Qed.

Lemma rfind_app (c : ascii) (a b : string) (i : nat) :
  Str.rfind c b = Some i → Str.rfind c (a +:+ b) = Some (String.length a + i).
Proof.
  intros Hb. induction a as [|x a IH]; simpl; [done | by rewrite IH].
Qed.

Lemma drop_app_length_str (a b : string) : Str.drop (String.length a) (a +:+ b) = b.
Proof. induction a as [|x a IH]; simpl; [by destruct b | done]. Qed.

Lemma name_suffix_txt (stem : string) :
  stem ≠ "" → name_suffix (stem +:+ ".txt") = ".txt".
Proof.
  intros Hne. unfold name_suffix.
  rewrite (rfind_app "." stem ".txt" 0) by done.
  rewrite string_length_app, Nat.add_0_r. simpl String.length.
  destruct stem as [|x stem]; [done|]. simpl String.length.
  replace (0 <? S (String.length stem)) with true by (symmetry; by apply Nat.ltb_lt; lia).
  replace (S (String.length stem) <? S (String.length stem) + 4 - 1) with true
    by (symmetry; apply Nat.ltb_lt; lia).
  simpl andb. apply (drop_app_length_str (String x stem)).
Qed.

Lemma name_joinpath (p : path) (s : string) : name (joinpath p s) = s.
Proof. unfold name, joinpath. apply last_last. Qed.

Lemma length_drop_str (i : nat) (s : string) :
  String.length (Str.drop i s) = String.length s - i.
Proof.
  revert s. induction i as [|i IH]; intros s; simpl; [lia|].
  destruct s as [|x s]; simpl; [done | apply IH].
Qed.

Lemma take_nonempty (i : nat) (s : string) :
  0 < i → s ≠ "" → Str.take i s ≠ "".
Proof. intros Hi Hs. destruct i; [lia|]. by destruct s. Qed.

(** What [main] hands to the driver always has the extension [.txt]. *)
Lemma checked_output_path_txt (output_filename output_path : path) (printed : list string) :
  checked_output_path output_filename = Ok (printed, output_path) →
  suffix output_path = ".txt".
Proof.
  unfold checked_output_path.
  destruct (String.eqb_spec (suffix output_filename) ".txt") as [Heq|Hne]; simpl.
  - by intros [= _ <-].
  - unfold with_suffix.
    destruct (String.eqb_spec (name output_filename) "") as [|Hname]; [done|]. simpl.
    intros [= _ <-]. unfold suffix at 1. rewrite name_joinpath.
    destruct (String.eqb_spec (suffix output_filename) "") as [|Hold].
    + by apply name_suffix_txt.
    + apply name_suffix_txt. apply take_nonempty; [|done].
      unfold suffix, name_suffix in *.
      destruct (Str.rfind "." (name output_filename)) as [i|]; [|done].
      destruct (0 <? i) eqn:Hi; [|done].
      destruct (i <? String.length (name output_filename) - 1) eqn:Hi'; [|done].
      simpl. rewrite length_drop_str.
      apply Nat.ltb_lt in Hi, Hi'. lia.
Qed.

(** C10.  An output path with the extension [.txt] has no block in the
    output of its own run, wherever it lies, also inside the input
    directory: neither [.txt] nor a name ending in it is a key of the
    extension table.  The path that [main] passes to the driver always
    has that extension. *)
Theorem output_file_not_included `{Runtime} (input_path output_path : path) (fs : FS) :
  (suffix output_path = ".txt" →
   ∀ ws, (output_path, ws) ∉
         outcome_blocks (concatenate_project input_path output_path fs).1) ∧
  (∀ printed output_path', checked_output_path output_path = Ok (printed, output_path') →
                           suffix output_path' = ".txt").
Proof.
  split; [|intros printed output_path'; apply checked_output_path_txt].
  intros Htxt ws. unfold concatenate_project.
  destruct (load_patterns fs input_path) as [pats|e]; [|apply not_elem_of_nil].
  destruct (open_w fs output_path) as [fs_open|e]; [|apply not_elem_of_nil].
  destruct (walk_sound fs_open input_path output_path pats [] (rglob fs_open input_path))
    as (new & Hsnd & Hnew).
  destruct (walk fs_open input_path output_path pats [] (rglob fs_open input_path))
    as [raised blocks].
  simpl in Hsnd. subst blocks.
  assert (Hno : (output_path, ws) ∉ new).
  { intros Hin. destruct (Hnew _ _ Hin) as (_ & Hinc & _).
    destruct (txt_is_no_key output_path Htxt) as [H1 H2].
    unfold included in Hinc. rewrite H1, H2 in Hinc. by rewrite andb_false_r in Hinc. }
  by destruct raised.
Qed.

Lemma output_file_not_included_witness :
  (∀ ws, (["proj"; "out.txt"], ws) ∉
         outcome_blocks (@concatenate_project posix ["proj"] ["proj"; "out.txt"] fs_demo).1) ∧
  (∀ printed output_path',
     checked_output_path ["proj"; "out.txt"] = Ok (printed, output_path') →
     suffix output_path' = ".txt").
Proof.
  destruct (@output_file_not_included posix ["proj"] ["proj"; "out.txt"] fs_demo)
    as [Hno Hcli].
  split; [apply Hno; reflexivity | exact Hcli].
Defined.

(** ** Running twice *)

(** Opening the output file again, after a run has closed it, gives the
    state the first run started its walk from. *)
Lemma open_w_again (fs fs_open : FS) (output_path : path) (written : list string) :
  open_w fs output_path = Ok fs_open →
  open_w (close_w fs_open output_path written) output_path = Ok fs_open.
Proof.
  unfold open_w, close_w. intros Hopen.
  assert (Hdir : is_dir fs (parent output_path) = true ∧ fs !! output_path ≠ Some Dir ∧
                 fs_open = <[output_path := File (Text "")]> fs).
  { destruct (fs !! output_path) as [[|c]|]; try done;
      destruct (is_dir fs (parent output_path)); try done; by injection Hopen as <-. }
  destruct Hdir as (Hdir & Hnot & ->).
  assert (Hne : output_path ≠ parent output_path).
  { intros Heq. rewrite <- Heq in Hdir. unfold is_dir in Hdir.
    by destruct (fs !! output_path) as [[|c]|]. }
  rewrite lookup_insert_eq. unfold is_dir.
  rewrite !lookup_insert_ne by done. unfold is_dir in Hdir.
  destruct (fs !! parent output_path) as [[|c]|]; try done.
  by rewrite !insert_insert_eq.
Qed.

(** The rules of a run depend on the entries named [.gitignore] only. *)
Lemma find_gitignore_loop_ext (fs fs' : FS) (fuel : nat) (current : path) :
  (∀ p, name p = ".gitignore" → fs' !! p = fs !! p) →
  find_gitignore_loop fs' fuel current = find_gitignore_loop fs fuel current.
Proof.
  intros Hext. revert current. induction fuel as [|fuel IH]; intros current; simpl; [done|].
  case_bool_decide; [|done]. unfold path_exists.
  rewrite (Hext (joinpath current ".gitignore")) by apply name_joinpath.
  destruct (fs !! joinpath current ".gitignore"); [done | apply IH].
Qed.

Lemma find_gitignore_loop_name (fs : FS) (fuel : nat) (current g : path) :
  find_gitignore_loop fs fuel current = Some (Some g) → name g = ".gitignore".
Proof.
  revert current. induction fuel as [|fuel IH]; intros current; simpl; [done|].
  case_bool_decide; [|done].
  destruct (path_exists fs (joinpath current ".gitignore")).
  - intros [= <-]. apply name_joinpath.
  - apply IH.
Qed.

Lemma load_patterns_ext (fs fs' : FS) (input_path : path) :
  (∀ p, name p = ".gitignore" → fs' !! p = fs !! p) →
  load_patterns fs' input_path = load_patterns fs input_path.
Proof.
  intros Hext. unfold load_patterns, find_gitignore.
  rewrite (find_gitignore_loop_ext fs fs') by done.
  destruct (find_gitignore_loop fs (S (length input_path)) input_path)
    as [[g|]|] eqn:E; simpl; try done.
  apply find_gitignore_loop_name in E. unfold parse_gitignore. by rewrite Hext.
Qed.

(** A run leaves every path but the output path as it was. *)
Lemma concatenate_project_frame `{Runtime} (input_path output_path : path) (fs : FS)
  (p : path) :
  p ≠ output_path →
  (concatenate_project input_path output_path fs).2 !! p = fs !! p.
Proof.
  intros Hne. unfold concatenate_project.
  destruct (load_patterns fs input_path) as [pats|e]; [|done].
  destruct (open_w fs output_path) as [fs_open|e] eqn:Hopen; [|done].
  destruct (walk fs_open input_path output_path pats [] (rglob fs_open input_path))
    as [raised blocks].
  assert (Hfs : close_w fs_open output_path (writes blocks) !! p = fs !! p).
  { unfold close_w, open_w in *. rewrite lookup_insert_ne by done.
    destruct (fs !! output_path) as [[|c]|]; try done;
      destruct (is_dir fs (parent output_path)); try done;
      injection Hopen as <-; by rewrite lookup_insert_ne. }
  by destruct raised.
Qed.

(** A run whose output path is not named like the rules file leaves the
    rules of the next run as they were; an output path with the
    extension [.txt] is such a path. *)
Lemma rules_survive_run `{Runtime} (input_path output_path : path) (fs : FS) :
  name output_path ≠ ".gitignore" →
  load_patterns (concatenate_project input_path output_path fs).2 input_path =
  load_patterns fs input_path.
Proof.
  intros Hname. apply load_patterns_ext. intros p Hp.
  apply concatenate_project_frame. intros ->. done.
Qed.

Lemma txt_is_no_rules_file (output_path : path) :
  suffix output_path = ".txt" → name output_path ≠ ".gitignore".
Proof. unfold suffix. intros Hs Hn. by rewrite Hn in Hs. Qed.

(** The second of two consecutive runs repeats the first, when the
    rules it loads are those the first loaded. *)
Lemma run_again `{Runtime} (input_path output_path : path) (fs fs1 : FS) (o1 : outcome) :
  concatenate_project input_path output_path fs = (o1, fs1) →
  load_patterns fs1 input_path = load_patterns fs input_path →
  concatenate_project input_path output_path fs1 = (o1, fs1).
Proof.
  intros Hrun Hrules. revert Hrun. unfold concatenate_project at 1.
  destruct (load_patterns fs input_path) as [pats|e] eqn:Hload.
  - destruct (open_w fs output_path) as [fs_open|e] eqn:Hopen.
    + destruct (walk fs_open input_path output_path pats [] (rglob fs_open input_path))
        as [raised blocks] eqn:Hwalk.
      intros Hrun.
      assert (Hfs1 : fs1 = close_w fs_open output_path (writes blocks))
        by (destruct raised; by injection Hrun as _ <-).
      unfold concatenate_project. rewrite Hrules. subst fs1.
      rewrite (open_w_again fs fs_open) by done. rewrite Hwalk.
      by destruct raised; injection Hrun as <-.
    + intros [= <- <-]. unfold concatenate_project. by rewrite Hrules, Hopen.
  - intros [= <- <-]. unfold concatenate_project. by rewrite Hrules.
Qed.

(** C8.  With the traversal order fixed by the runtime, two runs of the
    driver with the same input directory and output path give
    byte-identical output files:
    - two runs from one and the same file system state end alike and
      leave the same output file;
    - two runs one after the other, the second starting where the first
      stopped, do so too, the file system being the same for both as far
      as the driver reads it before it truncates the output file (the
      rules it loads are the same): the second run ends as the first did
      and leaves the file system, and so the bytes of the output file,
      exactly as the first left them. *)
Theorem two_runs_identical `{Runtime} (input_path output_path : path) (fs : FS) :
  (∀ o1 fs1 o2 fs2,
     concatenate_project input_path output_path fs = (o1, fs1) →
     concatenate_project input_path output_path fs = (o2, fs2) →
     o1 = o2 ∧ fs1 !! output_path = fs2 !! output_path) ∧
  (∀ o1 fs1 o2 fs2,
     concatenate_project input_path output_path fs = (o1, fs1) →
     load_patterns fs1 input_path = load_patterns fs input_path →
     concatenate_project input_path output_path fs1 = (o2, fs2) →
     o1 = o2 ∧ fs1 !! output_path = fs2 !! output_path).
Proof.
  split.
  - intros o1 fs1 o2 fs2 H1 H2. rewrite H1 in H2. by injection H2 as <- <-.
  - intros o1 fs1 o2 fs2 H1 Hrules H2.
    rewrite (run_again input_path output_path fs fs1 o1 H1 Hrules) in H2.
    by injection H2 as <- <-.
Qed.

Lemma two_runs_identical_witness :
  let run := @concatenate_project posix ["proj"] ["proj"; "out.txt"] in
  (run fs_demo).1 = (run (run fs_demo).2).1 ∧
  (run fs_demo).2 !! ["proj"; "out.txt"] = (run (run fs_demo).2).2 !! ["proj"; "out.txt"].
Proof.
  intros run.
  apply (proj2 (@two_runs_identical posix ["proj"] ["proj"; "out.txt"] fs_demo)
           (run fs_demo).1 (run fs_demo).2
           (run (run fs_demo).2).1 (run (run fs_demo).2).2).
  - apply surjective_pairing.
  - apply (@rules_survive_run posix). vm_compute. discriminate.
  - apply surjective_pairing.
Defined.

(** The condition on the rules is needed for consecutive runs: a run
    that is told to write its output over the rules file of
    the input directory changes the rules of the next run.  Here the first
    run has no rules and writes two blocks; the second reads the first
    output as rules, among them the line [*], and writes none. *)
Example second_run_after_rules_overwritten :
  let run := @concatenate_project posix ["proj"] ["proj"; ".gitignore"] in
  (outcome_blocks (run fs_star).1).*1 = [["proj"; "a.py"]; ["proj"; ".gitignore"]] ∧
  load_patterns fs_star ["proj"] = Ok [] ∧
  load_patterns (run fs_star).2 ["proj"] = Ok ["*"] ∧
  (run (run fs_star).2).1 = Completed [].
Proof. vm_compute. done. Qed.

(** ** The search for the rules file *)

Lemma parent_snoc (p : path) (s : string) : parent (p ++ [s]) = p.
Proof. apply removelast_last. Qed.

Lemma prefix_snoc_inv (d p : path) (s : string) :
  d `prefix_of` p ++ [s] → d = p ++ [s] ∨ d `prefix_of` p.
Proof.
  intros [k Hk]. destruct k as [|y k _] using rev_ind.
  - left. by rewrite app_nil_r in Hk.
  - right. rewrite app_assoc in Hk. apply app_inj_tail in Hk as [-> _]. by exists k.
Qed.

(** The loop ends within its bound: the search always returns. *)
Lemma find_gitignore_loop_total (fs : FS) (fuel : nat) (current : path) :
  length current < fuel → is_Some (find_gitignore_loop fs fuel current).
Proof.
  revert current. induction fuel as [|fuel IH]; intros current Hlen; [lia|]. simpl.
  case_bool_decide as Hroot; [|by eexists].
  destruct (path_exists fs (joinpath current ".gitignore")); [by eexists|].
  apply IH. destruct current as [|s current _] using rev_ind; [done|].
  rewrite parent_snoc. rewrite length_app in Hlen. simpl in Hlen. lia.
Qed.

(** What the search returns: the rules file of the closest directory
    that has one among the start directory and its ancestors, the root
    excepted; the root is never probed. *)
Lemma find_gitignore_loop_spec (fs : FS) (fuel : nat) (current : path) :
  length current < fuel →
  match find_gitignore_loop fs fuel current with
  | Some (Some g) =>
      ∃ d, d ≠ [] ∧ d `prefix_of` current ∧ g = joinpath d ".gitignore" ∧
           path_exists fs g = true ∧
           ∀ d', d' `prefix_of` current → length d < length d' →
                 path_exists fs (joinpath d' ".gitignore") = false
  | Some None =>
      ∀ d, d ≠ [] → d `prefix_of` current →
           path_exists fs (joinpath d ".gitignore") = false
  | None => False
  end.
Proof.
  revert current. induction fuel as [|fuel IH]; intros current Hlen; [lia|]. simpl.
  destruct current as [|s current _] using rev_ind.
  - rewrite bool_decide_eq_false_2 by (intros Hne; by apply Hne).
    intros d Hd [k Hk]. symmetry in Hk. by apply app_eq_nil in Hk as [-> _].
  - rewrite parent_snoc.
    rewrite bool_decide_eq_true_2
      by (intros Heq; apply (f_equal length) in Heq; rewrite length_app in Heq;
          simpl in Heq; lia).
    destruct (path_exists fs (joinpath (current ++ [s]) ".gitignore")) eqn:Hex.
    + exists (current ++ [s]). repeat split; try done.
      * by destruct current.
      * intros d' Hpre%prefix_length Hlt. lia.
    + rewrite length_app in Hlen. simpl in Hlen.
      specialize (IH current ltac:(lia)).
      destruct (find_gitignore_loop fs fuel current) as [[g|]|]; [| |done].
      * destruct IH as (d & Hd & Hpre & -> & Hg & Hcloser).
        exists d. repeat split; try done.
        { by apply prefix_app_r. }
        intros d' [->|Hd']%prefix_snoc_inv Hlt; [done | by apply Hcloser].
      * intros d Hd [->|Hpre]%prefix_snoc_inv; [done | by apply IH].
Qed.

(** X1.  What [find_gitignore] returns: either the rules file of the
    closest directory that has one, among the start directory and its
    ancestors below the root, that file existing and every closer
    directory having none; or nothing, and then none of these
    directories has one.  The search always ends. *)
Lemma find_gitignore_spec (fs : FS) (start_path : path) :
  match find_gitignore fs start_path with
  | Some g =>
      ∃ d, d ≠ [] ∧ d `prefix_of` start_path ∧ g = joinpath d ".gitignore" ∧
           path_exists fs g = true ∧
           ∀ d', d' `prefix_of` start_path → length d < length d' →
                 path_exists fs (joinpath d' ".gitignore") = false
  | None =>
      ∀ d, d ≠ [] → d `prefix_of` start_path →
           path_exists fs (joinpath d ".gitignore") = false
  end.
Proof.
  unfold find_gitignore.
  pose proof (find_gitignore_loop_spec fs (S (length start_path)) start_path
                ltac:(lia)) as Hspec.
  by destruct (find_gitignore_loop fs (S (length start_path)) start_path) as [[g|]|].
Qed.

Lemma find_gitignore_spec_witness :
  ∃ d, d ≠ [] ∧ d `prefix_of` ["proj"; "sub"] ∧
       ["proj"; ".gitignore"] = joinpath d ".gitignore" ∧
       path_exists fs_demo ["proj"; ".gitignore"] = true ∧
       ∀ d', d' `prefix_of` ["proj"; "sub"] → length d < length d' →
             path_exists fs_demo (joinpath d' ".gitignore") = false.
Proof.
  assert (Hfound : find_gitignore fs_demo ["proj"; "sub"] = Some ["proj"; ".gitignore"])
    by (vm_compute; reflexivity).
  pose proof (find_gitignore_spec fs_demo ["proj"; "sub"]) as Hspec.
  rewrite Hfound in Hspec. exact Hspec.
Defined.

(** C3, on the code.  The search stops when it reaches the root and
    does not look into it: with the rules file in the root directory and
    nowhere else, the search from [/proj], and the search from the root
    itself, answer that there is none, and the run includes [a.py], which
    the rule [*.py] of that file names. *)
Theorem find_gitignore_skips_root :
  path_exists fs_root_rules (joinpath [] ".gitignore") = true ∧
  find_gitignore fs_root_rules ["proj"] = None ∧
  find_gitignore fs_root_rules [] = None ∧
  (@concatenate_project posix ["proj"] ["out.txt"] fs_root_rules).1 =
  Completed [(["proj"; "a.py"],
              ["# File: /proj/a.py #" +:+ Str.nl; "print(1)"; Str.nl +:+ Str.nl])].
Proof. vm_compute. done. Qed.

(** ** Headers *)

(** The two shapes of the header: for the four extensions of
    [markup_exts] the marker of the table, the path and nothing else; for
    every other file the marker on both sides of the path. *)
Lemma header_line_markup (p : path) :
  str_in (Str.lower (suffix p)) markup_exts = true →
  header_line p =
  dict_get comment_syntax (Str.lower (suffix p)) "#" +:+ " File: " +:+ path_str p +:+
  " " +:+ Str.nl.
Proof. intros Hm. unfold header_line. by rewrite Hm. Qed.

Lemma header_line_repeats (p : path) :
  str_in (Str.lower (suffix p)) markup_exts = false →
  header_line p =
  dict_get comment_syntax (Str.lower (suffix p)) "#" +:+ " File: " +:+ path_str p +:+
  " " +:+ dict_get comment_syntax (Str.lower (suffix p)) "#" +:+ Str.nl.
Proof. intros Hm. unfold header_line. by rewrite Hm. Qed.

Example header_line_py :
  header_line ["proj"; "a.py"] = "# File: /proj/a.py #" +:+ Str.nl.
Proof. vm_compute. reflexivity. Qed.

Example header_line_htm :
  header_line ["proj"; "old.htm"] = "--> File: /proj/old.htm -->" +:+ Str.nl.
Proof. vm_compute. reflexivity. Qed.

(** C2, on the code.  The header of [index.html] starts with the marker
    of the table, which is the closing marker of an HTML comment, and
    has nothing after the path: no opening marker [<!--] and no closing
    marker are written. *)
Theorem html_header_written :
  header_line ["proj"; "index.html"] = "--> File: /proj/index.html " +:+ Str.nl ∧
  (@concatenate_project posix ["proj"] ["out.txt"] fs_html).1 =
  Completed [(["proj"; "index.html"],
              ["--> File: /proj/index.html " +:+ Str.nl; "<p>hi</p>"; Str.nl +:+ Str.nl])].
Proof. vm_compute. done. Qed.

(** ** The output path of [main] *)

(** A path with the extension [.txt] is used as it is, without a
    warning. *)
Lemma checked_output_path_unchanged (output_path : path) :
  suffix output_path = ".txt" → checked_output_path output_path = Ok ([], output_path).
Proof. intros Hs. unfold checked_output_path. by rewrite Hs. Qed.

Example checked_output_path_cases :
  checked_output_path ["repo.txt"] = Ok ([], ["repo.txt"]) ∧
  snd <$> checked_output_path ["repo"] = Ok ["repo.txt"] ∧
  snd <$> checked_output_path ["a.tar.gz"] = Ok ["a.tar.txt"] ∧
  snd <$> checked_output_path [".txt"] = Ok [".txt.txt"] ∧
  checked_output_path [] = Raise (ValueError "/ has an empty name").
Proof. vm_compute. done. Qed.

(** C5, on the code.  For [notes.md] the warning says that [.txt] is
    appended, and the path used is [notes.txt]: the extension [.md] is
    replaced. *)
Theorem txt_replaces_extension :
  checked_output_path ["work"; "notes.md"] =
  Ok (["Warning: Output filename does not end with '.txt'. Appending '.txt'."],
      ["work"; "notes.txt"]) ∧
  (@main posix ["proj"] ["notes.md"] fs_demo).1.1 =
  ["Warning: Output filename does not end with '.txt'. Appending '.txt'.";
   "All files from '/proj' concatenated to '/notes.txt'."].
Proof. vm_compute. done. Qed.

(** * Further properties *)

(** ** The rules parser *)

Lemma lstrip_head (s : string) :
  Str.lstrip s = "" ∨ ∃ a r, Str.lstrip s = String a r ∧ Str.is_space a = false.
Proof.
  induction s as [|a s IH]; simpl; [by left|].
  destruct (Str.is_space a) eqn:Ha; [done|]. right. by exists a, s.
Qed.

Lemma rstrip_cons_nonspace (a : ascii) (s : string) :
  Str.is_space a = false → Str.rstrip (String a s) = String a (Str.rstrip s).
Proof. intros Ha. simpl. rewrite Ha. by destruct (Str.rstrip s). Qed.

Lemma rstrip_idem (s : string) : Str.rstrip (Str.rstrip s) = Str.rstrip s.
Proof.
  induction s as [|a s IH]; simpl; [done|].
  destruct (Str.rstrip s) as [|b r] eqn:Hr.
  - destruct (Str.is_space a) eqn:Ha; simpl; [done | by rewrite Ha].
  - change (Str.rstrip (String a (String b r))) with
      (match Str.rstrip (String b r) with
       | EmptyString => if Str.is_space a then EmptyString else String a EmptyString
       | r' => String a r'
       end).
    by rewrite IH.
Qed.

Lemma strip_idem (s : string) : Str.strip (Str.strip s) = Str.strip s.
Proof.
  unfold Str.strip. destruct (lstrip_head s) as [->|(a & r & -> & Ha)]; [done|].
  rewrite (rstrip_cons_nonspace a r Ha). simpl Str.lstrip. rewrite Ha.
  rewrite <- (rstrip_cons_nonspace a r Ha). apply rstrip_idem.
Qed.

Lemma parse_lines_elem (ls : list string) (pat : string) :
  pat ∈ parse_lines ls ↔
  ∃ line, line ∈ ls ∧ pat = Str.strip line ∧ pat ≠ "" ∧ Str.startswith "#" pat = false.
Proof.
  induction ls as [|line ls IH]; cbn [parse_lines].
  - split; [by intros ?%elem_of_nil | by intros (? & ?%elem_of_nil & _)].
  - assert (Hrest : (∃ l, l ∈ ls ∧ pat = Str.strip l ∧ pat ≠ "" ∧
                          Str.startswith "#" pat = false) →
                    ∃ l, l ∈ line :: ls ∧ pat = Str.strip l ∧ pat ≠ "" ∧
                         Str.startswith "#" pat = false).
    { intros (l & Hin & ?). exists l. split; [by right | done]. }
    destruct (String.eqb_spec (Str.strip line) "") as [He|He]; cbn [negb andb].
    + rewrite IH. split; [done|].
      intros (l & [->|Hin]%elem_of_cons & -> & Hne & Hs); [done|]. by exists l.
    + destruct (Str.startswith "#" (Str.strip line)) eqn:Hc; cbn [negb].
      * rewrite IH. split; [done|].
        intros (l & [->|Hin]%elem_of_cons & -> & Hne & Hs); [congruence|]. by exists l.
      * rewrite elem_of_cons, IH. split.
        -- intros [->|Hex]; [|by apply Hrest].
           exists line. split; [by left | done].
        -- intros (l & [->|Hin]%elem_of_cons & -> & Hne & Hs); [by left|].
           right. by exists l.
Qed.

(** X2.  Every pattern that [parse_gitignore] returns is a line of the
    rules file with the surrounding whitespace removed: it is not empty,
    it does not begin with [#], and it has no whitespace left at
    either end. *)
Theorem parse_gitignore_patterns (fs : FS) (gitignore_path : path)
  (pats : list string) (pat : string) :
  parse_gitignore fs gitignore_path = Ok pats →
  pat ∈ pats →
  pat ≠ "" ∧ Str.startswith "#" pat = false ∧ Str.strip pat = pat.
Proof.
  unfold parse_gitignore. intros Hparse Hin.
  destruct (fs !! gitignore_path) as [[|[s|s msg|msg]]|]; try done.
  injection Hparse as <-.
  apply parse_lines_elem in Hin as (line & _ & -> & Hne & Hs).
  by rewrite strip_idem.
Qed.

Lemma parse_gitignore_patterns_witness :
  "*.log" ≠ "" ∧ Str.startswith "#" "*.log" = false ∧ Str.strip "*.log" = "*.log".
Proof.
  apply (parse_gitignore_patterns fs_demo ["proj"; ".gitignore"] ["*.log"] "*.log").
  - vm_compute. reflexivity.
  - apply list_elem_of_singleton. reflexivity.
Defined.

Lemma parse_lines_app (l1 l2 : list string) :
  parse_lines (l1 ++ l2) = parse_lines l1 ++ parse_lines l2.
Proof.
  induction l1 as [|line l1 IH]; [done|].
  cbn [parse_lines app]. rewrite IH.
  by destruct (negb (String.eqb (Str.strip line) "") &&
               negb (Str.startswith "#" (Str.strip line))).
Qed.

(** X3.  The loop of [parse_gitignore] keeps the order of the lines and
    treats each line on its own: a line that is blank after stripping,
    or a comment, can be added or removed anywhere without a change to
    the patterns, and the patterns of two runs of lines are those of the
    first followed by those of the second. *)
Theorem parse_lines_skips (l1 l2 : list string) (line : string) :
  Str.strip line = "" ∨ Str.startswith "#" (Str.strip line) = true →
  parse_lines (l1 ++ line :: l2) = parse_lines (l1 ++ l2) ∧
  parse_lines (l1 ++ l2) = parse_lines l1 ++ parse_lines l2.
Proof.
  intros Hskip. split; [|apply parse_lines_app].
  rewrite !parse_lines_app. f_equal. cbn [parse_lines].
  destruct Hskip as [-> | ->]; [done | by rewrite andb_false_r].
Qed.

Lemma parse_lines_skips_witness :
  parse_lines (["*.log"] ++ "  # build" :: ["*.o"]) = parse_lines (["*.log"] ++ ["*.o"]) ∧
  parse_lines (["*.log"] ++ ["*.o"]) = parse_lines ["*.log"] ++ parse_lines ["*.o"].
Proof.
  apply (parse_lines_skips ["*.log"] ["*.o"] "  # build").
  right. vm_compute. reflexivity.
Defined.

(** ** The matcher, further *)

Lemma relative_to_Raise (p base : path) (e : exn) :
  relative_to p base = Raise e → e = ValueError "is not in the subpath".
Proof.
  revert p. induction base as [|b base IH]; intros p; simpl; [done|].
  destruct p as [|s p]; [by intros [= <-]|].
  destruct (String.eqb b s); [apply IH | by intros [= <-]].
Qed.

(** X4.  The matcher answers exactly for the paths at or below the base
    directory; for any other path it raises the [ValueError] of
    [relative_to], whatever the patterns are. *)
Theorem is_ignored_answers_iff_below `{Runtime} (file_path base : path)
  (pats : list string) :
  ((∃ b, is_ignored file_path pats base = Ok b) ↔ base `prefix_of` file_path) ∧
  (is_ignored file_path pats base = Raise (ValueError "is not in the subpath") ↔
   ¬ base `prefix_of` file_path).
Proof.
  unfold is_ignored, is_ignored_trace.
  destruct (relative_to file_path base) as [rel|e] eqn:Hrel; simpl.
  - apply relative_to_Ok in Hrel. split.
    + split; [intros _; by exists rel | intros _; by eexists].
    + split; [done | intros Hno; destruct Hno; by exists rel].
  - assert (Hno : ¬ base `prefix_of` file_path).
    { intros [rel Hpre]. apply relative_to_Ok in Hpre. congruence. }
    apply relative_to_Raise in Hrel as ->. split.
    + split; [by intros [b ?] | done].
    + done.
Qed.

(** X5.  Rules only take files away: a file that a rule set ignores is
    ignored by every rule set that contains its patterns, and a file is
    ignored by two rule sets put together exactly when one of them
    ignores it. *)
Theorem is_ignored_monotone `{Runtime} (file_path base : path) (l1 l2 : list string) :
  ((∀ pat, pat ∈ l1 → pat ∈ l2) →
   is_ignored file_path l1 base = Ok true →
   is_ignored file_path l2 base = Ok true) ∧
  (is_ignored file_path (l1 ++ l2) base = Ok true ↔
   is_ignored file_path l1 base = Ok true ∨ is_ignored file_path l2 base = Ok true).
Proof.
  unfold is_ignored, is_ignored_trace.
  destruct (relative_to file_path base) as [rel|e]; simpl; [|split; [done | tauto]].
  split.
  - intros Hsub [= H1]. apply match_patterns_true in H1 as (pat & Hin & Hm).
    f_equal. apply match_patterns_true. exists pat. auto.
  - rewrite !match_patterns_existsb, existsb_app.
    destruct (existsb _ l1), (existsb _ l2); simpl; split; try done; auto; by intros [|].
Qed.

Lemma is_ignored_monotone_witness :
  @is_ignored posix ["proj"; "app.log"] ["*.py"; "*.log"] ["proj"] = Ok true ∧
  (@is_ignored posix ["proj"; "app.log"] (["*.log"] ++ ["*.py"; "*.log"]) ["proj"] = Ok true ↔
   @is_ignored posix ["proj"; "app.log"] ["*.log"] ["proj"] = Ok true ∨
   @is_ignored posix ["proj"; "app.log"] ["*.py"; "*.log"] ["proj"] = Ok true).
Proof.
  destruct (@is_ignored_monotone posix ["proj"; "app.log"] ["proj"] ["*.log"]
              ["*.py"; "*.log"]) as [Hmono Happ].
  split; [|exact Happ]. apply Hmono.
  - intros pat ->%list_elem_of_singleton. right. left.
  - vm_compute. reflexivity.
Defined.

(** ** The driver, further *)


Lemma walk_paths `{Runtime} (fs : FS) (input_path output_path : path)
  (pats : list string) (done : list block) (entries : list path) :
  (∀ q e, q ∈ entries → is_ignored q pats input_path ≠ Raise e) →
  (walk fs input_path output_path pats done entries).2.*1 =
  done.*1 ++ filter (fun p => included fs input_path pats p = true) entries.
Proof.
  revert done. induction entries as [|q entries IH]; intros done Hok; simpl.
  - by rewrite app_nil_r.
  - assert (Hok' : ∀ q' e, q' ∈ entries → is_ignored q' pats input_path ≠ Raise e)
      by (intros q' e Hin; apply Hok; by right).
    rewrite visit_not_raised by (intros e; apply Hok; left).
    destruct (included fs input_path pats q) eqn:Hq.
    + rewrite IH by done. rewrite filter_cons_True by done.
      rewrite fmap_app. simpl. by rewrite <- app_assoc.
    + rewrite IH by done. rewrite filter_cons_False; [done|]. by rewrite Hq.
Qed.

Lemma run_block_paths `{Runtime} (input_path output_path : path) (fs fs_open : FS)
  (pats : list string) :
  load_patterns fs input_path = Ok pats →
  open_w fs output_path = Ok fs_open →
  ∃ blocks,
    concatenate_project input_path output_path fs =
      (Completed blocks, close_w fs_open output_path (writes blocks)) ∧
    blocks.*1 = filter (fun p => included fs_open input_path pats p = true)
                       (rglob fs_open input_path).
Proof.
  intros Hload Hopen.
  destruct (run_completes input_path output_path fs fs_open pats Hload Hopen)
    as (blocks & Hrun & _).
  exists blocks. split; [done|].
  assert (Hbelow : ∀ q e, q ∈ rglob fs_open input_path →
                          is_ignored q pats input_path ≠ Raise e).
  { intros q e [(rel & _ & ->) _]%rglob_spec. by rewrite is_ignored_below. }
  pose proof (walk_paths fs_open input_path output_path pats [] _ Hbelow) as Hpaths.
  unfold concatenate_project in Hrun. rewrite Hload, Hopen in Hrun.
  destruct (walk fs_open input_path output_path pats [] (rglob fs_open input_path))
    as [raised blocks'].
  simpl in Hpaths. destruct raised; [done|]. by injection Hrun as ->.
Qed.

(** X6.  The blocks of a run follow the traversal: their paths are the
    entries that pass the three tests of the loop body, in the order in
    which [rglob] yields them, nothing added and nothing moved. *)
Theorem blocks_in_traversal_order `{Runtime} (input_path output_path : path)
  (fs fs_open : FS) (pats : list string) :
  load_patterns fs input_path = Ok pats →
  open_w fs output_path = Ok fs_open →
  ∃ blocks,
    concatenate_project input_path output_path fs =
      (Completed blocks, close_w fs_open output_path (writes blocks)) ∧
    blocks.*1 = filter (fun p => included fs_open input_path pats p = true)
                       (rglob fs_open input_path) ∧
    blocks.*1 `sublist_of` rglob fs_open input_path.
Proof.
  intros Hload Hopen.
  destruct (run_block_paths input_path output_path fs fs_open pats Hload Hopen)
    as (blocks & Hrun & Hpaths).
  exists blocks. repeat split; try done. rewrite Hpaths. apply sublist_filter.
Qed.

Lemma blocks_in_traversal_order_witness :
  ∃ blocks,
    @concatenate_project posix ["proj"] ["out.txt"] fs_demo =
      (Completed blocks,
       close_w (<[["out.txt"] := File (Text "")]> fs_demo) ["out.txt"] (writes blocks)) ∧
    blocks.*1 =
      filter (fun p => @included posix (<[["out.txt"] := File (Text "")]> fs_demo)
                         ["proj"] ["*.log"] p = true)
             (@rglob posix (<[["out.txt"] := File (Text "")]> fs_demo) ["proj"]) ∧
    blocks.*1 `sublist_of` @rglob posix (<[["out.txt"] := File (Text "")]> fs_demo) ["proj"].
Proof.
  apply (@blocks_in_traversal_order posix ["proj"] ["out.txt"] fs_demo
           (<[["out.txt"] := File (Text "")]> fs_demo) ["*.log"]).
  - vm_compute. reflexivity.
  - apply open_w_fresh; vm_compute; reflexivity.
Defined.

(** X7.  Where the traversal yields no entry twice, no file has two
    blocks: every included file is written exactly once. *)
Theorem blocks_once `{Runtime} (input_path output_path : path)
  (fs fs_open : FS) (pats : list string) :
  load_patterns fs input_path = Ok pats →
  open_w fs output_path = Ok fs_open →
  NoDup (rglob fs_open input_path) →
  NoDup (outcome_blocks (concatenate_project input_path output_path fs).1).*1.
Proof.
  intros Hload Hopen Hnodup.
  destruct (run_block_paths input_path output_path fs fs_open pats Hload Hopen)
    as (blocks & Hrun & Hpaths).
  rewrite Hrun. simpl. rewrite Hpaths. by apply NoDup_filter.
Qed.

Lemma blocks_once_witness :
  NoDup (outcome_blocks (@concatenate_project posix ["proj"] ["out.txt"] fs_demo).1).*1.
Proof.
  apply (@blocks_once posix ["proj"] ["out.txt"] fs_demo
           (<[["out.txt"] := File (Text "")]> fs_demo) ["*.log"]).
  - vm_compute. reflexivity.
  - apply open_w_fresh; vm_compute; reflexivity.
  - unfold rglob, posix, Posix.entries. apply NoDup_filter.
    apply NoDup_fst_map_to_list.
Defined.

(** X8.  A run writes to the output path and to nothing else: every
    other path of the file system is after the run what it was before,
    whether the run completes or an exception ends it; the same holds for
    [main] and the path it passes to the driver. *)
Theorem run_changes_output_only `{Runtime} (input_path output_path p : path) (fs : FS) :
  (p ≠ output_path →
   (concatenate_project input_path output_path fs).2 !! p = fs !! p) ∧
  ((∀ printed output_path', checked_output_path output_path = Ok (printed, output_path') →
                            p ≠ output_path') →
   (main input_path output_path fs).2 !! p = fs !! p).
Proof.
  split; [apply concatenate_project_frame|].
  intros Hne. unfold main.
  destruct (is_dir fs input_path); simpl; [|done].
  destruct (checked_output_path output_path) as [[printed output_path']|e]; [|done].
  pose proof (concatenate_project_frame input_path output_path' fs p
                (Hne printed output_path' eq_refl)) as Hframe.
  by destruct (concatenate_project input_path output_path' fs) as [[blocks|e blocks] fs'].
Qed.

Lemma run_changes_output_only_witness :
  (@concatenate_project posix ["proj"] ["out.txt"] fs_demo).2 !! ["proj"; "a.py"] =
    fs_demo !! ["proj"; "a.py"] ∧
  (@main posix ["proj"] ["out.md"] fs_demo).2 !! ["proj"; "a.py"] =
    fs_demo !! ["proj"; "a.py"].
Proof.
  destruct (@run_changes_output_only posix ["proj"] ["out.txt"] ["proj"; "a.py"] fs_demo)
    as [Hrun _].
  destruct (@run_changes_output_only posix ["proj"] ["out.md"] ["proj"; "a.py"] fs_demo)
    as [_ Hmain].
  split; [apply Hrun; discriminate|].
  apply Hmain. intros printed output_path'. vm_compute. intros [= _ <-]. discriminate.
Defined.

Lemma universal_newlines_no_cr (s : string) :
  Str.rfind "013" s = None → Str.universal_newlines s = s.
Proof.
  induction s as [|a s IH]; simpl; [done|].
  destruct (Str.rfind "013" s); [done|].
  destruct (Ascii.eqb a "013"); [done|]. intros _. by rewrite IH.
Qed.

(** X9.  An included file that can be read has the block of its header
    line, its text with every carriage return, alone or before a line
    feed, turned into a line feed, and one blank line; a text without
    carriage returns is written as it is.  This holds whether the bytes
    decode cleanly or the lenient read had to drop some of them:
    undecodable bytes never make the read fail.  The block stands as a
    whole in the text of the output file. *)
Theorem readable_file_block `{Runtime} (input_path output_path : path)
  (fs fs_open : FS) (pats : list string) (p : path) (s msg : string) :
  load_patterns fs input_path = Ok pats →
  open_w fs output_path = Ok fs_open →
  below input_path p →
  p ≠ output_path →
  fs_open !! p = Some (File (Text s)) ∨ fs_open !! p = Some (File (Garbled s msg)) →
  is_ignored p pats input_path = Ok false →
  dict_in (Str.lower (suffix p)) comment_syntax = true ∨
  dict_in (name p) comment_syntax = true →
  let content := Str.universal_newlines s in
  (Str.rfind "013" s = None → content = s) ∧
  ∃ blocks out_text,
    concatenate_project input_path output_path fs =
      (Completed blocks, <[output_path := File (Text out_text)]> fs_open) ∧
    out_text = String.concat "" (concat (map snd blocks)) ∧
    (∃ before after,
       out_text = before +:+ header_line p +:+ content +:+ Str.nl +:+ Str.nl +:+ after) ∧
    (p, [header_line p; content; Str.nl +:+ Str.nl]) ∈ blocks ∧
    ∀ ws, (p, ws) ∈ blocks → ws = [header_line p; content; Str.nl +:+ Str.nl].
Proof.
  intros Hload Hopen Hbelow Hout Hp Hign Hkey content.
  split; [apply universal_newlines_no_cr|].
  assert (Hfile : is_file fs_open p = true)
    by (unfold is_file; by destruct Hp as [-> | ->]).
  assert (Hinc : included fs_open input_path pats p = true).
  { unfold included. rewrite Hfile, Hign. simpl.
    destruct Hkey as [-> | ->]; [done | by rewrite orb_true_r]. }
  assert (Hread : ∀ written, read_text fs_open output_path written p = Ok content).
  { intros written. unfold read_text.
    rewrite bool_decide_eq_false_2 by done. by destruct Hp as [-> | ->]. }
  destruct (run_output input_path output_path fs fs_open pats Hload Hopen)
    as (blocks & out_text & Hrun & Hout_text & Hnew & Hall).
  exists blocks, out_text. split; [exact Hrun|]. split; [exact Hout_text|].
  assert (Hsame : ∀ ws, (p, ws) ∈ blocks →
                        ws = [header_line p; content; Str.nl +:+ Str.nl]).
  { intros ws Hin. destruct (Hnew p ws Hin) as (_ & _ & [written Hws] & _).
    by rewrite Hread in Hws. }
  destruct (Hall p) as [ws Hin]; [|exact Hinc|].
  { apply rglob_spec. split; [done|]. destruct Hp as [-> | ->]; by eexists. }
  pose proof (Hsame ws Hin) as ->.
  split; [|split; [exact Hin | exact Hsame]].
  destruct (Hnew p _ Hin) as (_ & _ & _ & before & after & Htext).
  exists before, after. rewrite Htext. f_equal.
  change (String.concat "" [header_line p; content; Str.nl +:+ Str.nl])
    with (header_line p +:+ content +:+ (Str.nl +:+ Str.nl)).
  by rewrite !append_assoc_str.
Qed.

Lemma readable_file_block_witness :
  let content := "x = 1" +:+ Str.nl +:+ "y = 2" +:+ Str.nl +:+ "z" in
  let fs_open := <[["out.txt"] := File (Text "")]> fs_crlf in
  (Str.rfind "013" ("x = 1" +:+ String "013" (String "010" "y = 2") +:+ String "013" "z")
     = None →
   content = "x = 1" +:+ String "013" (String "010" "y = 2") +:+ String "013" "z") ∧
  ∃ blocks out_text,
    @concatenate_project posix ["proj"] ["out.txt"] fs_crlf =
      (Completed blocks, <[["out.txt"] := File (Text out_text)]> fs_open) ∧
    out_text = String.concat "" (concat (map snd blocks)) ∧
    (∃ before after,
       out_text = before +:+ header_line ["proj"; "a.py"] +:+ content +:+ Str.nl +:+
                  Str.nl +:+ after) ∧
    (["proj"; "a.py"], [header_line ["proj"; "a.py"]; content; Str.nl +:+ Str.nl])
      ∈ blocks ∧
    ∀ ws, (["proj"; "a.py"], ws) ∈ blocks →
          ws = [header_line ["proj"; "a.py"]; content; Str.nl +:+ Str.nl].
Proof.
  apply (@readable_file_block posix ["proj"] ["out.txt"] fs_crlf
           (<[["out.txt"] := File (Text "")]> fs_crlf) []
           ["proj"; "a.py"]
           ("x = 1" +:+ String "013" (String "010" "y = 2") +:+ String "013" "z") "").
  - vm_compute. reflexivity.
  - apply open_w_fresh; vm_compute; reflexivity.
  - exists ["a.py"]. split; [discriminate | reflexivity].
  - discriminate.
  - left. vm_compute. reflexivity.
  - vm_compute. reflexivity.
  - left. vm_compute. reflexivity.
Defined.

(** X10.  The driver does not set its own output file apart: an output
    path below the input directory that no rule ignores and whose
    extension or name is in the table gets a block in its own output,
    with whatever part of the output has reached the file at that point
    as its content. *)
Theorem output_file_can_be_included `{Runtime} (input_path output_path : path)
  (fs fs_open : FS) (pats : list string) :
  load_patterns fs input_path = Ok pats →
  open_w fs output_path = Ok fs_open →
  below input_path output_path →
  is_ignored output_path pats input_path = Ok false →
  dict_in (Str.lower (suffix output_path)) comment_syntax = true ∨
  dict_in (name output_path) comment_syntax = true →
  ∃ blocks written,
    concatenate_project input_path output_path fs =
      (Completed blocks, close_w fs_open output_path (writes blocks)) ∧
    (output_path,
     [header_line output_path; flushed (written ++ [header_line output_path]);
      Str.nl +:+ Str.nl]) ∈ blocks.
Proof.
  intros Hload Hopen Hbelow Hign Hkey.
  assert (Hlook : fs_open !! output_path = Some (File (Text ""))).
  { unfold open_w in Hopen.
    destruct (fs !! output_path) as [[|c]|]; try done;
      destruct (is_dir fs (parent output_path)); try done;
      injection Hopen as <-; apply lookup_insert_eq. }
  assert (Hinc : included fs_open input_path pats output_path = true).
  { unfold included, is_file. rewrite Hlook, Hign. simpl.
    destruct Hkey as [-> | ->]; [done | by rewrite orb_true_r]. }
  destruct (run_completes input_path output_path fs fs_open pats Hload Hopen)
    as (blocks & Hrun & Hnew & Hall).
  destruct (Hall output_path) as [ws Hin]; [|done|].
  { apply rglob_spec. split; [done | by rewrite Hlook]. }
  destruct (Hnew output_path ws Hin) as (_ & _ & written & ->).
  exists blocks, written. split; [done|].
  unfold block_writes, content_writes, read_text in Hin.
  by rewrite bool_decide_eq_true_2 in Hin.
Qed.

Lemma output_file_can_be_included_witness :
  ∃ blocks written,
    @concatenate_project posix ["proj"] ["proj"; "all.py"] fs_demo =
      (Completed blocks,
       close_w (<[["proj"; "all.py"] := File (Text "")]> fs_demo) ["proj"; "all.py"]
               (writes blocks)) ∧
    (["proj"; "all.py"],
     [header_line ["proj"; "all.py"];
      @flushed posix (written ++ [header_line ["proj"; "all.py"]]);
      Str.nl +:+ Str.nl]) ∈ blocks.
Proof.
  apply (@output_file_can_be_included posix ["proj"] ["proj"; "all.py"] fs_demo
           (<[["proj"; "all.py"] := File (Text "")]> fs_demo) ["*.log"]).
  - vm_compute. reflexivity.
  - apply open_w_fresh; vm_compute; reflexivity.
  - exists ["all.py"]. split; [discriminate | reflexivity].
  - vm_compute. reflexivity.
  - left. vm_compute. reflexivity.
Defined.

(** X11.  The walk goes through the entries one after the other: the
    walk over two lists in a row is the walk over the first and, unless
    an exception ended it, the walk over the second from the blocks the
    first has written; the blocks written before are kept as they are. *)
Theorem walk_app `{Runtime} (fs : FS) (input_path output_path : path)
  (pats : list string) (done : list block) (l1 l2 : list path) :
  walk fs input_path output_path pats done (l1 ++ l2) =
    (match walk fs input_path output_path pats done l1 with
     | (None, done1) => walk fs input_path output_path pats done1 l2
     | (Some e, done1) => (Some e, done1)
     end) ∧
  done `prefix_of` (walk fs input_path output_path pats done (l1 ++ l2)).2.
Proof.
  split.
  - revert done. induction l1 as [|q l1 IH]; intros done; simpl; [reflexivity|].
    destruct (visit fs input_path output_path pats (writes done) q) as [[ws|]|e];
      [apply IH | apply IH | reflexivity].
  - destruct (walk_sound fs input_path output_path pats done (l1 ++ l2))
      as (new & -> & _).
    by exists new.
Qed.

(** ** The output path of [main], further *)

(** X12.  The check of the output path is stable: the path it returns
    passes the check unchanged and without a warning; and the warning is
    printed exactly when the returned path differs from the given one. *)
Theorem checked_output_path_stable (output_path output_path' : path)
  (printed : list string) :
  checked_output_path output_path = Ok (printed, output_path') →
  checked_output_path output_path' = Ok ([], output_path') ∧
  (printed = [] ↔ output_path' = output_path).
Proof.
  intros Hchk. split.
  - apply checked_output_path_unchanged. by apply checked_output_path_txt in Hchk.
  - split.
    + intros ->. unfold checked_output_path in Hchk.
      destruct (negb (String.eqb (suffix output_path) ".txt")); [|by injection Hchk as <-].
      by destruct (with_suffix output_path ".txt").
    + intros ->. pose proof (checked_output_path_txt _ _ _ Hchk) as Htxt.
      rewrite (checked_output_path_unchanged _ Htxt) in Hchk. by injection Hchk as <-.
Qed.

Lemma checked_output_path_stable_witness :
  checked_output_path ["work"; "notes.txt"] = Ok ([], ["work"; "notes.txt"]) ∧
  (["Warning: Output filename does not end with '.txt'. Appending '.txt'."] = [] ↔
   ["work"; "notes.txt"] = ["work"; "notes.md"]).
Proof.
  apply (checked_output_path_stable ["work"; "notes.md"] ["work"; "notes.txt"]
           ["Warning: Output filename does not end with '.txt'. Appending '.txt'."]).
  vm_compute. reflexivity.
Defined.

Lemma startswith_refl (s : string) : Str.startswith s s = true.
Proof. induction s as [|a s IH]; simpl; [done | by rewrite Ascii.eqb_refl]. Qed.

Lemma startswith_take (i : nat) (s : string) : Str.startswith (Str.take i s) s = true.
Proof.
  revert s. induction i as [|i IH]; intros s; simpl; [done|].
  destruct s as [|a s]; simpl; [done|]. by rewrite Ascii.eqb_refl.
Qed.

Lemma take_drop_str (i : nat) (s : string) : Str.take i s +:+ Str.drop i s = s.
Proof.
  revert s. induction i as [|i IH]; intros s; simpl; [done|].
  destruct s as [|a s]; [done|].
  change (String a (Str.take i s +:+ Str.drop i s) = String a s). f_equal. apply IH.
Qed.

(** A name with a proper extension splits into a stem that is not empty
    and the extension. *)
Lemma name_suffix_split (nm : string) :
  name_suffix nm ≠ "" →
  ∃ stem, stem ≠ "" ∧ Str.startswith stem nm = true ∧ nm = stem +:+ name_suffix nm ∧
          stem = Str.take (String.length nm - String.length (name_suffix nm)) nm.
Proof.
  unfold name_suffix. destruct (Str.rfind "." nm) as [i|]; [|done].
  destruct (0 <? i) eqn:Hi; [|done].
  destruct (i <? String.length nm - 1) eqn:Hi'; [|done]. simpl. intros _.
  apply Nat.ltb_lt in Hi, Hi'.
  exists (Str.take i nm). repeat split.
  - apply take_nonempty; [done|]. intros ->. simpl in Hi'. lia.
  - apply startswith_take.
  - by rewrite take_drop_str.
  - rewrite length_drop_str. f_equal. lia.
Qed.

(** X13.  The check of the output path raises exactly for a path with
    an empty name, the root; otherwise the path it returns lies in the
    same directory as the given one and is named by a stem of the given
    name, not empty, followed by [.txt]. *)
Theorem checked_output_path_result (output_path : path) :
  ((∃ e, checked_output_path output_path = Raise e) ↔ name output_path = "") ∧
  (∀ printed output_path',
     checked_output_path output_path = Ok (printed, output_path') →
     parent output_path' = parent output_path ∧
     ∃ stem, stem ≠ "" ∧ Str.startswith stem (name output_path) = true ∧
             name output_path' = stem +:+ ".txt").
Proof.
  unfold checked_output_path.
  destruct (String.eqb_spec (suffix output_path) ".txt") as [Htxt|Htxt]; simpl.
  - assert (Hsfx : name_suffix (name output_path) ≠ "")
      by (unfold suffix in Htxt; by rewrite Htxt).
    destruct (name_suffix_split _ Hsfx) as (stem & Hstem & Hpre & Hname & _).
    split.
    + split; [by intros [e ?]|]. intros Hempty. rewrite Hempty in Hsfx. done.
    + intros printed output_path' [= _ <-]. split; [done|].
      exists stem. unfold suffix in Htxt. by rewrite <- Htxt.
  - unfold with_suffix.
    destruct (String.eqb_spec (name output_path) "") as [Hempty|Hname]; simpl.
    + split; [split; [done | intros _; by eexists]|done].
    + split; [split; [by intros [e ?] | done]|].
      intros printed output_path' [= _ <-].
      rewrite name_joinpath. unfold joinpath at 1. rewrite parent_snoc. split; [done|].
      destruct (String.eqb_spec (suffix output_path) "") as [Hold|Hold].
      * exists (name output_path). split; [done|]. split; [apply startswith_refl | done].
      * destruct (name_suffix_split (name output_path) Hold)
          as (stem & Hstem & Hpre & _ & Hstem').
        exists stem. unfold suffix. by rewrite <- Hstem'.
Qed.

Lemma checked_output_path_result_witness :
  parent ["work"; "notes.txt"] = parent ["work"; "notes.md"] ∧
  ∃ stem, stem ≠ "" ∧ Str.startswith stem (name ["work"; "notes.md"]) = true ∧
          name ["work"; "notes.txt"] = stem +:+ ".txt".
Proof.
  apply (proj2 (checked_output_path_result ["work"; "notes.md"])
           ["Warning: Output filename does not end with '.txt'. Appending '.txt'."]
           ["work"; "notes.txt"]).
  vm_compute. reflexivity.
Defined.

(** ** Headers, further *)

(** X14.  The marker of a header is looked up by the extension alone:
    a file that is included for its name, its extension being no key of
    the table, has the default marker [#] on both sides of its path. *)
Theorem header_line_default (p : path) :
  dict_in (Str.lower (suffix p)) comment_syntax = false →
  header_line p = "# File: " +:+ path_str p +:+ " #" +:+ Str.nl.
Proof.
  intros Hkey. unfold header_line.
  assert (Hget : dict_get comment_syntax (Str.lower (suffix p)) "#" = "#").
  { unfold dict_get. unfold dict_in in Hkey.
    by destruct (dict_lookup comment_syntax (Str.lower (suffix p))). }
  assert (Hmark : str_in (Str.lower (suffix p)) markup_exts = false).
  { unfold str_in, markup_exts. cbn [existsb].
    destruct (String.eqb_spec (Str.lower (suffix p)) ".html") as [Heq|_];
      [rewrite Heq in Hkey; vm_compute in Hkey; discriminate|].
    destruct (String.eqb_spec (Str.lower (suffix p)) ".css") as [Heq|_];
      [rewrite Heq in Hkey; vm_compute in Hkey; discriminate|].
    destruct (String.eqb_spec (Str.lower (suffix p)) ".xml") as [Heq|_];
      [rewrite Heq in Hkey; vm_compute in Hkey; discriminate|].
    destruct (String.eqb_spec (Str.lower (suffix p)) ".md") as [Heq|_];
      [rewrite Heq in Hkey; vm_compute in Hkey; discriminate|].
    reflexivity. }
  rewrite Hget, Hmark. done.
Qed.

Lemma header_line_default_witness :
  header_line ["proj"; "sub"; "Makefile"] =
  "# File: " +:+ path_str ["proj"; "sub"; "Makefile"] +:+ " #" +:+ Str.nl.
Proof.
  apply (header_line_default ["proj"; "sub"; "Makefile"]). vm_compute. reflexivity.
Defined.
